(** * Kimi Code provider: the OAuth device-code client of [index.ts]

    A shallow embedding of the OAuth 2.0 device authorization client
    ([requestDeviceAuthorization], [requestDeviceToken],
    [refreshAccessToken], [loginKimiCode], [refreshKimiCodeToken]) and the
    properties of its login state machine.

    Modelling conventions.
    - A JavaScript [number] that the program reads from JSON or from the
      clock is an integer [Z], one that binary64 represents exactly.  The
      results of [+] and [*] are values of [number]: they are rounded as
      binary64 rounds them ([round53]), to [Infinity] beyond its range, and
      arithmetic on [undefined] gives [NaN].
    - A parsed JSON body is seen through the properties the program reads,
      each with the type its TypeScript cast declares, or absent
      ([undefined], here [None]).
    - The outside world (HTTP server, clock, abort signal, random source) is
      a deterministic oracle [Env] whose answers may depend on everything
      that happened before.  What happened before is the [trace], kept
      newest event first.
    - [async] code is sequential: every [await] is a bind of the monad [M].
    - Both loops of [loginKimiCode] may run forever, so they take fuel;
      running out of fuel is the outcome [OutOfFuel], which is not an
      exception and which no [catch] sees. *)

From Stdlib Require Import ZArith List String Ascii Bool Lia.
From Stdlib Require Import DecimalString.
From Stdlib Require SpecFloat.
Import ListNotations.
Open Scope string_scope.
Open Scope Z_scope.

(* ================================================================== *)
(** ** JavaScript values *)

(** [new Error(message)], and the two kinds of error the runtime raises
    itself: [fetch] rejects with a [TypeError], [response.json()] with a
    [SyntaxError] (or a [TypeError] when the body is [null] and a property
    of it is read).  All three are [instanceof Error]. *)
Inductive JsError : Type :=
| Error (msg : string)
| TypeError (msg : string)
| SyntaxError (msg : string).

Definition message (e : JsError) : string :=
  match e with Error m | TypeError m | SyntaxError m => m end.

Inductive number : Type :=
| Num (z : Z)
| NaN
| Infinity (negative : bool).

Coercion Num : Z >-> number.

(** Reading a numeric property that may be [undefined]: ToNumber. *)
Definition ToNumber (v : option Z) : number :=
  match v with Some z => Num z | None => NaN end.

(** The binary64 value nearest to the integer [z]: [z] itself below [2^53]
    in magnitude, else [z] rounded to 53 significant bits, ties to the even
    mantissa, and [Infinity] when the rounded magnitude reaches [2^1024]. *)
Definition round53 (z : Z) : number :=
  let a := Z.abs z in
  if a <? 2 ^ 53 then Num z
  else
    let e := Z.log2 a - 52 in
    let q := a / 2 ^ e in
    let r := a mod 2 ^ e in
    let half := 2 ^ (e - 1) in
    let q' := if r <? half then q
              else if half <? r then q + 1
              else if Z.even q then q else q + 1 in
    let m := q' * 2 ^ e in
    if 2 ^ 1024 <=? m then Infinity (z <? 0) else Num (Z.sgn z * m).

(** [a * b] and [a + b] on numbers. *)
Definition mul (a b : number) : number :=
  match a, b with
  | Num x, Num y => round53 (x * y)
  | Num x, Infinity s | Infinity s, Num x =>
      if x =? 0 then NaN else Infinity (xorb s (x <? 0))
  | Infinity s, Infinity s' => Infinity (xorb s s')
  | _, _ => NaN
  end.

Definition add (a b : number) : number :=
  match a, b with
  | Num x, Num y => round53 (x + y)
  | Num _, Infinity s | Infinity s, Num _ => Infinity s
  | Infinity s, Infinity s' => if Bool.eqb s s' then Infinity s else NaN
  | _, _ => NaN
  end.

(** [a < b] on numbers. *)
Definition lt (a b : number) : bool :=
  match a, b with
  | Num x, Num y => x <? y
  | Num _, Infinity s => negb s
  | Infinity s, Num _ => s
  | Infinity s, Infinity s' => s && negb s'
  | _, _ => false
  end.

(** Truthiness of a string property ([undefined] and [""] are falsy). *)
Definition truthy_string (v : option string) : bool :=
  match v with
  | Some s => negb (s =? "")%string
  | None => false
  end.

(** [v || d] on strings and on numbers ([undefined] and [0] are falsy). *)
Definition or_string (v : option string) (d : string) : string :=
  match v with
  | Some s => if (s =? "")%string then d else s
  | None => d
  end.

Definition or_number (v : option Z) (d : Z) : Z :=
  match v with
  | Some z => if z =? 0 then d else z
  | None => d
  end.

(** [v === s] for a string property [v] and a string literal [s]. *)
Definition strict_eq (v : option string) (s : string) : bool :=
  match v with
  | Some x => (x =? s)%string
  | None => false
  end.

(** Template-literal interpolation of a number. *)
Definition show (z : Z) : string := NilZero.string_of_int (Z.to_int z).

(* ================================================================== *)
(** ** Constants *)

Definition CLIENT_ID : string := "17e5f671-d194-4dfb-9706-5516cb48c098".
Definition OAUTH_HOST : string := "https://auth.kimi.com".
Definition KIMI_CLI_USER_AGENT : string := "kimi-cli/1.0.0 (external, cli)".
Definition KIMI_PLATFORM : string := "kimi_cli".

Definition DEVICE_AUTHORIZATION_URL : string :=
  OAUTH_HOST ++ "/api/oauth/device_authorization".
Definition TOKEN_URL : string := OAUTH_HOST ++ "/api/oauth/token".

(* ================================================================== *)
(** ** HTTP *)

Record Request : Type := mkRequest {
  url : string;
  method : string;
  headers : list (string * string);
  body : list (string * string)
}.

(** The JSON object of a response body.  Any non-object JSON value other
    than [null] behaves like the object with no properties. *)
Record Json : Type := mkJson {
  j_user_code : option string;
  j_device_code : option string;
  j_verification_uri : option string;
  j_verification_uri_complete : option string;
  j_expires_in : option Z;
  j_interval : option Z;
  j_access_token : option string;
  j_refresh_token : option string;
  j_scope : option string;
  j_token_type : option string;
  j_error : option string;
  j_error_description : option string
}.

Definition emptyJson : Json :=
  mkJson None None None None None None None None None None None None.

(** A response: [json] is what [response.json()] settles to, [text] what
    [response.text()] settles to ([None] when it rejects). *)
Record Response : Type := mkResponse {
  status : Z;
  json : JsError + Json;
  text : option string
}.

Definition ok (r : Response) : bool :=
  (200 <=? status r) && (status r <=? 299).

(** [await response.text().catch(() => "")] *)
Definition text_or_empty (r : Response) : string :=
  match text r with Some t => t | None => "" end.

(* ================================================================== *)
(** ** Interfaces of the program *)

Record DeviceAuthorization : Type := mkDeviceAuthorization {
  user_code : string;
  device_code : string;
  verification_uri : string;
  verification_uri_complete : string;
  expires_in : Z;
  interval : Z
}.

(** [expires_in], [scope] and [token_type] are never checked by the
    program, so they may be [undefined] at run time. *)
Record TokenResponse : Type := mkTokenResponse {
  access_token : string;
  refresh_token : string;
  token_expires_in : option Z;
  scope : option string;
  token_type : option string
}.

Record OAuthCredentials : Type := mkOAuthCredentials {
  access : string;
  refresh : string;
  expires : number
}.

(** The part of [OAuthLoginCallbacks] the program uses: [onAuth] is always
    there, [onProgress] and [signal] are optional. *)
Record OAuthLoginCallbacks : Type := mkCallbacks {
  has_onProgress : bool;
  has_signal : bool
}.

(* ================================================================== *)
(** ** The world *)

Inductive Event : Type :=
| EvFetch (req : Request) (res : JsError + Response)
| EvDateNow (t : Z)
| EvOnAuth (auth_url instructions : string)
| EvOnProgress (msg : string)
| EvSignalAborted (b : bool)
| EvSetTimeout (ms : number).

Record Env : Type := mkEnv {
  env_platform : string;                                 (* process.platform *)
  env_arch : string;                                     (* process.arch *)
  env_randomBytes : list Event -> string;                (* randomBytes(16).toString("hex") *)
  env_fetch : list Event -> Request -> JsError + Response;
  env_now : list Event -> Z;                             (* Date.now() *)
  env_aborted : list Event -> bool                       (* signal.aborted *)
}.

(** The module's mutable global [DEVICE_ID] and the history so far. *)
Record State : Type := mkState {
  DEVICE_ID : option string;
  trace : list Event
}.

Inductive outcome (A : Type) : Type :=
| Ok (a : A)
| Throw (e : JsError)
| OutOfFuel.
Arguments Ok {A} a.
Arguments Throw {A} e.
Arguments OutOfFuel {A}.

Definition M (A : Type) : Type := State -> outcome A * State.

Definition ret {A} (a : A) : M A := fun s => (Ok a, s).
Definition throw {A} (e : JsError) : M A := fun s => (Throw e, s).
Definition out_of_fuel {A} : M A := fun s => (OutOfFuel, s).

Definition bind {A B} (m : M A) (k : A -> M B) : M B :=
  fun s =>
    match m s with
    | (Ok a, s') => k a s'
    | (Throw e, s') => (Throw e, s')
    | (OutOfFuel, s') => (OutOfFuel, s')
    end.

Notation "x <- m ;; k" := (bind m (fun x => k))
  (at level 61, m at next level, right associativity).
Notation "m ;;; k" := (bind m (fun _ => k))
  (at level 61, right associativity).

(** [try { m } catch (error) { h error }] *)
Definition try_catch {A} (m : M A) (h : JsError -> M A) : M A :=
  fun s =>
    match m s with
    | (Throw e, s') => h e s'
    | r => r
    end.

Definition log (e : Event) (s : State) : State :=
  mkState (DEVICE_ID s) (e :: trace s).

Definition emit (e : Event) : M unit := fun s => (Ok tt, log e s).

Definition initial (id : option string) : State := mkState id [].

(* ================================================================== *)
(** ** The program *)

Section Program.

Variable env : Env.

(** *** Primitive effects *)

Definition fetch (req : Request) : M Response :=
  fun s =>
    let res := env_fetch env (trace s) req in
    (match res with inl e => Throw e | inr r => Ok r end,
     log (EvFetch req res) s).

Definition Date_now : M Z :=
  fun s => let t := env_now env (trace s) in (Ok t, log (EvDateNow t) s).

(** [await response.json()] *)
Definition response_json (r : Response) : M Json :=
  match json r with inl e => throw e | inr d => ret d end.

(** [callbacks.onAuth({url, instructions})] *)
Definition onAuth (u instructions : string) : M unit :=
  emit (EvOnAuth u instructions).

(** [if (callbacks.onProgress) callbacks.onProgress(msg)] *)
Definition onProgress (callbacks : OAuthLoginCallbacks) (msg : string) : M unit :=
  if has_onProgress callbacks then emit (EvOnProgress msg) else ret tt.

(** [callbacks.signal?.aborted], as a condition *)
Definition signal_aborted (callbacks : OAuthLoginCallbacks) : M bool :=
  if has_signal callbacks
  then fun s => let b := env_aborted env (trace s) in (Ok b, log (EvSignalAborted b) s)
  else ret false.

(** [await new Promise((resolve) => setTimeout(resolve, ms))] *)
Definition sleep (ms : number) : M unit := emit (EvSetTimeout ms).

(** *** Device identification *)

Definition createDeviceId : M string :=
  fun s => (Ok (env_randomBytes env (trace s)), s).

Definition getDeviceModel : string :=
  let platform := env_platform env in
  let arch := env_arch env in
  if (platform =? "darwin")%string then "macOS " ++ arch
  else if (platform =? "win32")%string then "Windows " ++ arch
  else platform ++ " " ++ arch.

Definition DEVICE_MODEL : string := getDeviceModel.

Definition getStableDeviceId : M string :=
  fun s =>
    if truthy_string (DEVICE_ID s)
    then (Ok (or_string (DEVICE_ID s) ""), s)
    else
      match createDeviceId s with
      | (Ok id, s') => (Ok id, mkState (Some id) (trace s'))
      | r => r
      end.

Definition getCommonHeaders : M (list (string * string)) :=
  id <- getStableDeviceId ;;
  ret [ ("User-Agent", KIMI_CLI_USER_AGENT);
        ("X-Msh-Platform", KIMI_PLATFORM);
        ("X-Msh-Device-Model", DEVICE_MODEL);
        ("X-Msh-Device-Id", id) ].

Definition form_headers (common : list (string * string)) : list (string * string) :=
  ("Content-Type", "application/x-www-form-urlencoded") :: common.

(** *** OAuth requests *)

Definition requestDeviceAuthorization : M DeviceAuthorization :=
  common <- getCommonHeaders ;;
  response <- fetch (mkRequest DEVICE_AUTHORIZATION_URL "POST"
                       (form_headers common)
                       [("client_id", CLIENT_ID)]) ;;
  if negb (ok response) then
    throw (Error ("Device authorization failed: " ++ show (status response)
                    ++ " " ++ text_or_empty response))
  else
    data <- response_json response ;;
    if negb (truthy_string (j_user_code data))
       || negb (truthy_string (j_device_code data))
       || negb (truthy_string (j_verification_uri_complete data))
    then throw (Error "Invalid device authorization response")
    else
      ret {| user_code := or_string (j_user_code data) "";
             device_code := or_string (j_device_code data) "";
             verification_uri := or_string (j_verification_uri data) "";
             verification_uri_complete := or_string (j_verification_uri_complete data) "";
             expires_in := or_number (j_expires_in data) 1800;
             interval := or_number (j_interval data) 5 |}.

(** The response body as a [TokenResponse], once [access_token] and
    [refresh_token] are known to be truthy: the same object is returned. *)
Definition as_TokenResponse (data : Json) : TokenResponse :=
  {| access_token := or_string (j_access_token data) "";
     refresh_token := or_string (j_refresh_token data) "";
     token_expires_in := j_expires_in data;
     scope := j_scope data;
     token_type := j_token_type data |}.

Definition requestDeviceToken (auth : DeviceAuthorization) : M (option TokenResponse) :=
  common <- getCommonHeaders ;;
  response <- fetch (mkRequest TOKEN_URL "POST"
                       (form_headers common)
                       [("client_id", CLIENT_ID);
                        ("device_code", device_code auth);
                        ("grant_type", "urn:ietf:params:oauth:grant-type:device_code")]) ;;
  if status response =? 200 then
    data <- response_json response ;;
    if truthy_string (j_access_token data) && truthy_string (j_refresh_token data)
    then ret (Some (as_TokenResponse data))
    else throw (Error "Token response missing required fields")
  else if status response =? 400 then
    data <- response_json response ;;
    if strict_eq (j_error data) "authorization_pending" then
      ret None                                   (* still waiting for the user *)
    else if strict_eq (j_error data) "expired_token" then
      throw (Error "expired_token")
    else
      throw (Error ("Token request failed: "
                      ++ or_string (j_error_description data)
                           (or_string (j_error data) "unknown")))
  else
    throw (Error ("Token request failed: " ++ show (status response)
                    ++ " " ++ text_or_empty response)).

Definition refreshAccessToken (refreshToken : string) : M TokenResponse :=
  common <- getCommonHeaders ;;
  response <- fetch (mkRequest TOKEN_URL "POST"
                       (form_headers common)
                       [("client_id", CLIENT_ID);
                        ("grant_type", "refresh_token");
                        ("refresh_token", refreshToken)]) ;;
  if negb (ok response) then
    if (status response =? 401) || (status response =? 403)
    then throw (Error ("Token refresh unauthorized: " ++ text_or_empty response))
    else throw (Error ("Token refresh failed: " ++ show (status response)
                         ++ " " ++ text_or_empty response))
  else
    data <- response_json response ;;
    if negb (truthy_string (j_access_token data))
       || negb (truthy_string (j_refresh_token data))
    then throw (Error "Token refresh response missing required fields")
    else ret (as_TokenResponse data).

(** *** Login and refresh *)

(** The inner [while (Date.now() < expiresAt)] loop.  Its result is the
    value of the variable [token] when the loop is left. *)
Fixpoint poll_loop (fuel : nat) (callbacks : OAuthLoginCallbacks)
    (auth : DeviceAuthorization) (interval_ms expiresAt : number)
    (printedWaiting : bool) : M (option TokenResponse) :=
  match fuel with
  | O => out_of_fuel
  | S fuel' =>
      now <- Date_now ;;
      if lt now expiresAt then
        attempt <- try_catch
                     (token <- requestDeviceToken auth ;;
                      ret (match token with
                           | Some t => inl (Some t)       (* if (token) break *)
                           | None => inr tt
                           end))
                     (fun error =>
                        if (message error =? "expired_token")%string then
                          onProgress callbacks "Device code expired, restarting..." ;;;
                          ret (inl None)                      (* break *)
                        else throw error) ;;
        match attempt with
        | inl token => ret token
        | inr _ =>
            (if negb printedWaiting
             then onProgress callbacks "Waiting for authorization..."
             else ret tt) ;;;
            aborted <- signal_aborted callbacks ;;
            if aborted then throw (Error "Authorization aborted")
            else
              sleep interval_ms ;;;
              poll_loop fuel' callbacks auth interval_ms expiresAt true
        end
      else ret None
  end.

(** The outer [while (true)] loop.  With fuel [n] it takes at most [n]
    turns, and the polling loop of a turn gets the fuel that is left. *)
Fixpoint loginKimiCode (fuel : nat) (callbacks : OAuthLoginCallbacks)
    : M OAuthCredentials :=
  match fuel with
  | O => out_of_fuel
  | S fuel' =>
      auth <- requestDeviceAuthorization ;;
      onAuth (verification_uri_complete auth)
             ("Please visit the URL to authorize. Your code: " ++ user_code auth) ;;;
      let interval_ms := mul (Z.max (interval auth) 1) 1000 in
      now <- Date_now ;;
      let expiresAt := add now (mul (expires_in auth) 1000) in
      token <- poll_loop fuel' callbacks auth interval_ms expiresAt false ;;
      match token with
      | Some token =>
          now' <- Date_now ;;
          ret {| access := access_token token;
                 refresh := refresh_token token;
                 expires := add (Num now')
                                (mul (ToNumber (token_expires_in token)) (Num 1000)) |}
      | None => loginKimiCode fuel' callbacks
      end
  end.

Definition refreshKimiCodeToken (credentials : OAuthCredentials) : M OAuthCredentials :=
  token <- refreshAccessToken (refresh credentials) ;;
  now <- Date_now ;;
  ret {| access := access_token token;
         refresh := refresh_token token;
         expires := add (Num now)
                        (mul (ToNumber (token_expires_in token)) (Num 1000)) |}.

End Program.

(* ================================================================== *)
(** ** Scripted worlds, for running the program on concrete inputs *)

Module Script.

Definition is_fetch (e : Event) : bool :=
  match e with EvFetch _ _ => true | _ => false end.

Definition is_timeout (e : Event) : bool :=
  match e with EvSetTimeout _ => true | _ => false end.

(** Number of requests sent so far, and time slept so far. *)
Definition fetches (l : list Event) : nat := List.length (filter is_fetch l).

Fixpoint slept (l : list Event) : Z :=
  match l with
  | EvSetTimeout (Num ms) :: l' => ms + slept l'
  | _ :: l' => slept l'
  | [] => 0
  end.

Definition json_response (st : Z) (d : Json) : JsError + Response :=
  inr (mkResponse st (inr d) None).

Definition device_json (uc dc : string) (e i : option Z) : Json :=
  mkJson (Some uc) (Some dc) None
         (Some ("https://auth.kimi.com/activate?code=" ++ uc)) e i
         None None None None None None.

Definition token_json (a r : string) (e : option Z) : Json :=
  mkJson None None None None e None (Some a) (Some r) None None None None.

Definition error_json (e : string) : Json :=
  mkJson None None None None None None None None None None (Some e) None.

Definition pending : JsError + Response :=
  json_response 400 (error_json "authorization_pending").

Definition expired : JsError + Response :=
  json_response 400 (error_json "expired_token").

(** A world that answers the n-th request with the n-th entry of
    [answers] (and with status 500 after that), whose clock starts at
    [t0] and advances only while the program sleeps, and whose abort
    signal is set once the program has slept [abort_after] milliseconds
    ([None]: never). *)
Definition world (answers : list (JsError + Response)) (t0 : Z)
    (abort_after : option Z) : Env :=
  {| env_platform := "linux";
     env_arch := "x64";
     env_randomBytes := fun _ => "000102030405060708090a0b0c0d0e0f";
     env_fetch := fun l _ =>
       nth (fetches l) answers (inr (mkResponse 500 (inl (SyntaxError "Unexpected end of JSON input")) (Some "")));
     env_now := fun l => t0 + slept l;
     env_aborted := fun l =>
       match abort_after with
       | Some d => d <=? slept l
       | None => false
       end |}.

Definition callbacks : OAuthLoginCallbacks := mkCallbacks true true.

(** Scenario 1 of the specification: three pending polls, then a token. *)
Definition scenario1 : Env :=
  world [ json_response 200 (device_json "ABCD-1234" "dc1" (Some 1800) (Some 5));
          pending; pending; pending;
          json_response 200 (token_json "at1" "rt1" (Some 3600)) ]
        1000000 None.

(** A device authorization that leaves out [expires_in] and [interval]. *)
Definition no_lifetime : Env :=
  world [ json_response 200 (device_json "ABCD-1234" "dc1" None None) ] 0 None.

(** A device authorization that reports [expires_in] and [interval] as 0. *)
Definition zero_lifetime : Env :=
  world [ json_response 200 (device_json "ABCD-1234" "dc1" (Some 0) (Some 0)) ] 0 None.

(** A token answer whose [access_token] is present but empty. *)
Definition empty_access_token : Env :=
  world [ json_response 200 (token_json "" "rt1" (Some 3600)) ] 0 None.

(** A device authorization whose [user_code] is present but empty. *)
Definition empty_user_code : Env :=
  world [ json_response 200 (device_json "" "dc1" (Some 1800) (Some 5)) ] 0 None.

(** A single poll answered "pending", "expired", with a token, or refused. *)
Definition one_pending : Env := world [ pending ] 0 None.
Definition one_expired : Env := world [ expired ] 0 None.
Definition one_token : Env :=
  world [ json_response 200 (token_json "at1" "rt1" (Some 3600)) ] 0 None.
Definition one_denied : Env :=
  world [ json_response 400 (error_json "access_denied") ] 0 None.

(** A refresh answered 401. *)
Definition refresh_401 : Env :=
  world [ inr (mkResponse 401 (inl (SyntaxError "Unexpected token")) (Some "invalid_grant")) ]
        0 None.

(** A login whose token answer reports [expires_in] as 0. *)
Definition zero_expiry : Env :=
  world [ json_response 200 (device_json "ABCD-1234" "dc1" (Some 1800) (Some 5));
          json_response 200 (token_json "at1" "rt1" (Some 0)) ]
        1000000 None.

(** A login whose token answer reports a lifetime of 9007199254740 seconds,
    read at clock value 1000001. *)
Definition long_lifetime : Env :=
  world [ json_response 200 (device_json "ABCD-1234" "dc1" (Some 1800) (Some 5));
          json_response 200 (token_json "at1" "rt1" (Some 9007199254740)) ]
        1000001 None.

(** A device authorization that asks for 72057594037929 seconds between
    polls. *)
Definition long_interval : Env :=
  world [ json_response 200
            (device_json "ABCD-1234" "dc1" (Some 1800) (Some 72057594037929));
          pending ]
        1000000 None.

(** A refresh that is granted, at clock value 2000000. *)
Definition refresh_granted : Env :=
  world [ json_response 200 (token_json "at2" "rt2" (Some 3600)) ] 2000000 None.

(** One pending poll; the user cancels while the program sleeps; the next
    poll brings the token. *)
Definition cancel_during_sleep : Env :=
  world [ json_response 200 (device_json "ABCD-1234" "dc1" (Some 1800) (Some 5));
          pending;
          json_response 200 (token_json "at1" "rt1" (Some 3600)) ]
        1000000 (Some 5000).

(** The user has cancelled before the first abort check. *)
Definition cancel_at_once : Env :=
  world [ json_response 200 (device_json "ABCD-1234" "dc1" (Some 1800) (Some 5));
          pending;
          json_response 200 (token_json "at1" "rt1" (Some 3600)) ]
        1000000 (Some 0).

(** Scenario 2 of the specification: the first device code expires on the
    second poll, the second one succeeds. *)
Definition scenario2 : Env :=
  world [ json_response 200 (device_json "ABCD-1234" "dc1" (Some 1800) (Some 5));
          pending; expired;
          json_response 200 (device_json "EFGH-5678" "dc2" (Some 1800) (Some 5));
          json_response 200 (token_json "at2" "rt2" (Some 3600)) ]
        1000000 None.

(** A server on which every device code has expired by the first poll. *)
Definition always_expired : Env :=
  {| env_platform := "linux";
     env_arch := "x64";
     env_randomBytes := fun _ => "000102030405060708090a0b0c0d0e0f";
     env_fetch := fun _ req =>
       if (url req =? DEVICE_AUTHORIZATION_URL)%string
       then json_response 200 (device_json "ABCD-1234" "dc1" (Some 1800) (Some 5))
       else expired;
     env_now := fun l => slept l;
     env_aborted := fun _ => false |}.

(** Number of polls sent so far. *)
Fixpoint polls (l : list Event) : nat :=
  match l with
  | EvFetch req _ :: l' =>
      if (url req =? TOKEN_URL)%string then S (polls l') else polls l'
  | _ :: l' => polls l'
  | [] => O
  end.

(** A server on which the first [n] polls find the device code expired and
    the next one brings the token; its clock stands still. *)
Definition expire_n (n : nat) : Env :=
  {| env_platform := "linux";
     env_arch := "x64";
     env_randomBytes := fun _ => "000102030405060708090a0b0c0d0e0f";
     env_fetch := fun l req =>
       if (url req =? DEVICE_AUTHORIZATION_URL)%string
       then json_response 200 (device_json "ABCD-1234" "dc1" (Some 1800) (Some 5))
       else if (polls l <? n)%nat then expired
       else json_response 200 (token_json "at1" "rt1" (Some 3600));
     env_now := fun _ => 0;
     env_aborted := fun _ => false |}.

(** Scenario 3 of the specification: the user denies the request. *)
Definition scenario3 : Env :=
  world [ json_response 200 (device_json "ABCD-1234" "dc1" (Some 1800) (Some 5));
          json_response 400 (error_json "access_denied");
          json_response 200 (token_json "at1" "rt1" (Some 3600)) ]
        1000000 None.

Definition auth1 : DeviceAuthorization :=
  {| user_code := "ABCD-1234";
     device_code := "dc1";
     verification_uri := "";
     verification_uri_complete := "https://auth.kimi.com/activate?code=ABCD-1234";
     expires_in := 1800;
     interval := 5 |}.

End Script.

(* ================================================================== *)
(** ** What a request function does, read off the answer of the server

    [requestDeviceAuthorization], [requestDeviceToken] and
    [refreshAccessToken] each send one request and then only look at the
    answer.  The functions below give the request sent from a state and the
    result as a function of the answer; the lemmas [*_run] prove that the
    program computes exactly these. *)

Section Results.

Variable env : Env.

Definition stableDeviceId (s : State) : string :=
  if truthy_string (DEVICE_ID s) then or_string (DEVICE_ID s) ""
  else env_randomBytes env (trace s).

Definition commonHeaders (s : State) : list (string * string) :=
  [ ("User-Agent", KIMI_CLI_USER_AGENT);
    ("X-Msh-Platform", KIMI_PLATFORM);
    ("X-Msh-Device-Model", DEVICE_MODEL env);
    ("X-Msh-Device-Id", stableDeviceId s) ].

Definition deviceAuthorizationRequest (s : State) : Request :=
  mkRequest DEVICE_AUTHORIZATION_URL "POST" (form_headers (commonHeaders s))
    [("client_id", CLIENT_ID)].

Definition tokenRequest (s : State) (auth : DeviceAuthorization) : Request :=
  mkRequest TOKEN_URL "POST" (form_headers (commonHeaders s))
    [("client_id", CLIENT_ID);
     ("device_code", device_code auth);
     ("grant_type", "urn:ietf:params:oauth:grant-type:device_code")].

Definition refreshRequest (s : State) (refreshToken : string) : Request :=
  mkRequest TOKEN_URL "POST" (form_headers (commonHeaders s))
    [("client_id", CLIENT_ID);
     ("grant_type", "refresh_token");
     ("refresh_token", refreshToken)].

(** The state after a request function: the device id is fixed and the
    exchange is in the trace. *)
Definition after_fetch (s : State) (req : Request) (res : JsError + Response) : State :=
  mkState (Some (stableDeviceId s)) (EvFetch req res :: trace s).

End Results.

Definition deviceAuthorizationResult (res : JsError + Response)
    : outcome DeviceAuthorization :=
  match res with
  | inl e => Throw e
  | inr response =>
      if negb (ok response) then
        Throw (Error ("Device authorization failed: " ++ show (status response)
                        ++ " " ++ text_or_empty response))
      else
        match json response with
        | inl e => Throw e
        | inr data =>
            if negb (truthy_string (j_user_code data))
               || negb (truthy_string (j_device_code data))
               || negb (truthy_string (j_verification_uri_complete data))
            then Throw (Error "Invalid device authorization response")
            else
              Ok {| user_code := or_string (j_user_code data) "";
                    device_code := or_string (j_device_code data) "";
                    verification_uri := or_string (j_verification_uri data) "";
                    verification_uri_complete :=
                      or_string (j_verification_uri_complete data) "";
                    expires_in := or_number (j_expires_in data) 1800;
                    interval := or_number (j_interval data) 5 |}
        end
  end.

Definition tokenResult (res : JsError + Response) : outcome (option TokenResponse) :=
  match res with
  | inl e => Throw e
  | inr response =>
      if status response =? 200 then
        match json response with
        | inl e => Throw e
        | inr data =>
            if truthy_string (j_access_token data)
               && truthy_string (j_refresh_token data)
            then Ok (Some (as_TokenResponse data))
            else Throw (Error "Token response missing required fields")
        end
      else if status response =? 400 then
        match json response with
        | inl e => Throw e
        | inr data =>
            if strict_eq (j_error data) "authorization_pending" then Ok None
            else if strict_eq (j_error data) "expired_token"
            then Throw (Error "expired_token")
            else Throw (Error ("Token request failed: "
                                 ++ or_string (j_error_description data)
                                      (or_string (j_error data) "unknown")))
        end
      else
        Throw (Error ("Token request failed: " ++ show (status response)
                        ++ " " ++ text_or_empty response))
  end.

Definition refreshResult (res : JsError + Response) : outcome TokenResponse :=
  match res with
  | inl e => Throw e
  | inr response =>
      if negb (ok response) then
        if (status response =? 401) || (status response =? 403)
        then Throw (Error ("Token refresh unauthorized: " ++ text_or_empty response))
        else Throw (Error ("Token refresh failed: " ++ show (status response)
                             ++ " " ++ text_or_empty response))
      else
        match json response with
        | inl e => Throw e
        | inr data =>
            if negb (truthy_string (j_access_token data))
               || negb (truthy_string (j_refresh_token data))
            then Throw (Error "Token refresh response missing required fields")
            else Ok (as_TokenResponse data)
        end
  end.

(** [Credentials] as both [loginKimiCode] and [refreshKimiCodeToken] build
    them from a token read at clock value [now]. *)
Definition credentials_at (now : Z) (token : TokenResponse) : OAuthCredentials :=
  {| access := access_token token;
     refresh := refresh_token token;
     expires := add (Num now) (mul (ToNumber (token_expires_in token)) (Num 1000)) |}.

(* ================================================================== *)
(** ** Reading a trace *)

Definition is_token_request (req : Request) : bool :=
  (url req =? TOKEN_URL)%string.

Definition is_device_request (req : Request) : bool :=
  (url req =? DEVICE_AUTHORIZATION_URL)%string.

(** How the orchestrator reads the result of one poll. *)
Definition is_pending (res : JsError + Response) : bool :=
  match tokenResult res with Ok None => true | _ => false end.

Definition is_expired (res : JsError + Response) : bool :=
  match tokenResult res with
  | Throw e => (message e =? "expired_token")%string
  | _ => false
  end.

Definition no_fetch (l : list Event) : Prop :=
  forall req res, ~ In (EvFetch req res) l.

(** The most recent exchange of a history and the events after it. *)
Fixpoint lastFetch (l : list Event) : option (Request * (JsError + Response)) :=
  match l with
  | [] => None
  | EvFetch req res :: _ => Some (req, res)
  | _ :: l' => lastFetch l'
  end.

Fixpoint sinceFetch (l : list Event) : list Event :=
  match l with
  | [] => []
  | EvFetch _ _ :: _ => []
  | e :: l' => e :: sinceFetch l'
  end.

(** The device authorization in force after a history: the one granted by
    the most recent device-authorization answer, as long as every poll since
    then was answered "pending".  A poll that ends otherwise (token, expiry,
    failure) leaves no authorization in force. *)
Fixpoint currentAuth (l : list Event) : option DeviceAuthorization :=
  match l with
  | [] => None
  | EvFetch req res :: l' =>
      if is_device_request req then
        match deviceAuthorizationResult res with
        | Ok auth => Some auth
        | _ => None
        end
      else if is_pending res then currentAuth l' else None
  | _ :: l' => currentAuth l'
  end.

(** [Math.max(auth.interval, 1) * 1000] and
    [t0 + auth.expires_in * 1000], as the program computes them. *)
Definition interval_ms (auth : DeviceAuthorization) : number :=
  mul (Z.max (interval auth) 1) 1000.

Definition deadline (t0 : Z) (auth : DeviceAuthorization) : number :=
  add t0 (mul (expires_in auth) 1000).

Definition abort_error : JsError := Error "Authorization aborted".

(** The two progress notices. *)
Definition waiting_notice : string := "Waiting for authorization...".
Definition expiry_notice : string := "Device code expired, restarting...".

(** *** The discipline every event of a login obeys

    [wf_event e l] says what must hold when event [e] happens after the
    history [l] (newest first). *)

Definition not_aborted (l : list Event) : Prop :=
  match l with
  | EvSignalAborted true :: _ => False
  | _ => True
  end.

(** [req] is the poll for the device code of [auth]. *)
Definition poll_for (auth : DeviceAuthorization) (req : Request) : Prop :=
  url req = TOKEN_URL /\
  method req = "POST" /\
  body req = [("client_id", CLIENT_ID);
              ("device_code", device_code auth);
              ("grant_type", "urn:ietf:params:oauth:grant-type:device_code")].

(** The history ends with a poll answered "pending", followed at most by
    the progress notice. *)
Definition after_pending (l : list Event) : Prop :=
  match l with
  | EvFetch req res :: _ =>
      is_token_request req = true /\ is_pending res = true
  | EvOnProgress _ :: EvFetch req res :: _ =>
      is_token_request req = true /\ is_pending res = true
  | _ => False
  end.

(** If the most recent exchange was a poll answered "pending", the program
    has slept the poll interval of the authorization in force since. *)
Definition slept_since_pending (l : list Event) : Prop :=
  forall req res,
    lastFetch l = Some (req, res) ->
    is_token_request req = true ->
    is_pending res = true ->
    exists auth, currentAuth l = Some auth /\
                 In (EvSetTimeout (interval_ms auth)) (sinceFetch l).

Definition fetch_ok (req : Request) (l : list Event) : Prop :=
  slept_since_pending l /\
  ((is_device_request req = true /\ is_token_request req = false) \/
   (is_token_request req = true /\
    exists auth, currentAuth l = Some auth /\ poll_for auth req)).

(** A sleep lasts the poll interval of the authorization in force, and
    comes right after the abort check of a pending poll (right after the
    pending poll itself when the host gave no signal). *)
Definition timeout_ok (callbacks : OAuthLoginCallbacks) (ms : number)
    (l : list Event) : Prop :=
  (exists auth, currentAuth l = Some auth /\ ms = interval_ms auth) /\
  if has_signal callbacks then
    match l with
    | EvSignalAborted false :: l' => after_pending l'
    | _ => False
    end
  else after_pending l.

Definition wf_event (callbacks : OAuthLoginCallbacks) (e : Event)
    (l : list Event) : Prop :=
  not_aborted l /\
  match e with
  | EvFetch req _ => fetch_ok req l
  | EvSignalAborted _ => has_signal callbacks = true /\ after_pending l
  | EvSetTimeout ms => timeout_ok callbacks ms l
  | _ => True
  end.

(** [extends P base l]: the history [l] is [base] followed by events that
    each satisfy [P] when they happen. *)
Inductive extends (P : Event -> list Event -> Prop) (base : list Event)
    : list Event -> Prop :=
| extends_refl : extends P base base
| extends_cons e l : extends P base l -> P e l -> extends P base (e :: l).

(** Number of device-authorization requests in a history. *)
Fixpoint device_requests (l : list Event) : nat :=
  match l with
  | [] => O
  | EvFetch req _ :: l' =>
      if is_device_request req then S (device_requests l') else device_requests l'
  | _ :: l' => device_requests l'
  end.

(** *** What follows the answer to a poll

    [follows env callbacks e l] says what the event [e] must be when the
    history [l] ends with a poll that brought the token or found the device
    code expired. *)

(** A device-authorization request: it carries the client id and nothing
    of an earlier authorization. *)
Definition is_device_fetch (e : Event) : Prop :=
  exists req res,
    e = EvFetch req res /\
    is_device_request req = true /\
    is_token_request req = false /\
    method req = "POST" /\
    body req = [("client_id", CLIENT_ID)].

Definition follows (env : Env) (callbacks : OAuthLoginCallbacks) (e : Event)
    (l : list Event) : Prop :=
  match l with
  | EvFetch req res :: _ =>
      is_token_request req = true ->
      (forall token, tokenResult res = Ok (Some token) ->
                     e = EvDateNow (env_now env l)) /\
      (is_expired res = true ->
       if has_onProgress callbacks then e = EvOnProgress expiry_notice
       else is_device_fetch e)
  | EvOnProgress _ :: EvFetch req res :: _ =>
      is_token_request req = true -> is_expired res = true -> is_device_fetch e
  | EvDateNow _ :: EvFetch req res :: _ =>
      is_token_request req = true ->
      forall token, tokenResult res <> Ok (Some token)
  | _ => True
  end.

(** The history ends where a polling loop starts a turn: on the clock
    reading that follows the call of [onAuth], or on a sleep. *)
Definition quiet (l : list Event) : Prop :=
  match l with
  | EvDateNow _ :: EvOnAuth _ _ :: _ => True
  | EvSetTimeout _ :: _ => True
  | _ => False
  end.

(** The history ends where a login starts its next turn: on a clock reading
    that ended the polling loop, or on a poll that found the device code
    expired, followed by the notice of it when the host takes notices. *)
Definition turn_over (callbacks : OAuthLoginCallbacks) (l : list Event) : Prop :=
  (exists t l0, l = EvDateNow t :: l0 /\ quiet l0) \/
  (exists req res l0,
     l = ((if has_onProgress callbacks then [EvOnProgress expiry_notice] else [])
            ++ EvFetch req res :: l0)%list /\
     is_token_request req = true /\ is_expired res = true).

(* ================================================================== *)
(** ** The request functions compute the result functions *)

Section RunLemmas.

Variable env : Env.

Lemma getCommonHeaders_run (s : State) :
  getCommonHeaders env s =
  (Ok (commonHeaders env s), mkState (Some (stableDeviceId env s)) (trace s)).
Proof.
  unfold getCommonHeaders, getStableDeviceId, bind, ret, commonHeaders,
    stableDeviceId, createDeviceId.
  destruct s as [id tr]; simpl.
  destruct id as [i|]; simpl; [|reflexivity].
  destruct (i =? "")%string; reflexivity.
Qed.

Lemma requestDeviceAuthorization_run (s : State) :
  let req := deviceAuthorizationRequest env s in
  let res := env_fetch env (trace s) req in
  requestDeviceAuthorization env s =
  (deviceAuthorizationResult res, after_fetch env s req res).
Proof.
  intros req res. subst res req.
  unfold requestDeviceAuthorization, deviceAuthorizationRequest.
  unfold bind at 1. rewrite getCommonHeaders_run.
  unfold bind, fetch, log; cbn [trace DEVICE_ID].
  unfold deviceAuthorizationResult, after_fetch.
  destruct (env_fetch env (trace s) _) as [e|response]; [reflexivity|].
  destruct (negb (ok response)); [reflexivity|].
  unfold response_json.
  destruct (json response) as [e|data]; [reflexivity|].
  unfold ret, throw.
  destruct (negb (truthy_string (j_user_code data))
            || negb (truthy_string (j_device_code data))
            || negb (truthy_string (j_verification_uri_complete data)));
    reflexivity.
Qed.

Lemma requestDeviceToken_run (auth : DeviceAuthorization) (s : State) :
  let req := tokenRequest env s auth in
  let res := env_fetch env (trace s) req in
  requestDeviceToken env auth s = (tokenResult res, after_fetch env s req res).
Proof.
  intros req res. subst res req.
  unfold requestDeviceToken, tokenRequest.
  unfold bind at 1. rewrite getCommonHeaders_run.
  unfold bind, fetch, log; cbn [trace DEVICE_ID].
  unfold tokenResult, after_fetch.
  destruct (env_fetch env (trace s) _) as [e|response]; [reflexivity|].
  unfold response_json, ret, throw.
  destruct (status response =? 200).
  - destruct (json response) as [e|data]; [reflexivity|].
    destruct (truthy_string (j_access_token data)
              && truthy_string (j_refresh_token data)); reflexivity.
  - destruct (status response =? 400); [|reflexivity].
    destruct (json response) as [e|data]; [reflexivity|].
    destruct (strict_eq (j_error data) "authorization_pending"); [reflexivity|].
    destruct (strict_eq (j_error data) "expired_token"); reflexivity.
Qed.

Lemma refreshAccessToken_run (refreshToken : string) (s : State) :
  let req := refreshRequest env s refreshToken in
  let res := env_fetch env (trace s) req in
  refreshAccessToken env refreshToken s =
  (refreshResult res, after_fetch env s req res).
Proof.
  intros req res. subst res req.
  unfold refreshAccessToken, refreshRequest.
  unfold bind at 1. rewrite getCommonHeaders_run.
  unfold bind, fetch, log; cbn [trace DEVICE_ID].
  unfold refreshResult, after_fetch.
  destruct (env_fetch env (trace s) _) as [e|response]; [reflexivity|].
  unfold response_json, ret, throw.
  destruct (negb (ok response)).
  - destruct ((status response =? 401) || (status response =? 403)); reflexivity.
  - destruct (json response) as [e|data]; [reflexivity|].
    destruct (negb (truthy_string (j_access_token data))
              || negb (truthy_string (j_refresh_token data))); reflexivity.
Qed.

End RunLemmas.

(* ================================================================== *)
(** ** One turn of each loop *)

Section Unfolding.

Variable env : Env.

(** The state after [if (callbacks.onProgress) callbacks.onProgress(msg)]. *)
Definition notify (callbacks : OAuthLoginCallbacks) (msg : string) (s : State) : State :=
  if has_onProgress callbacks then log (EvOnProgress msg) s else s.

Lemma poll_loop_S fuel callbacks auth iv expiresAt printedWaiting s :
  poll_loop env (S fuel) callbacks auth iv expiresAt printedWaiting s =
  let t := env_now env (trace s) in
  let s1 := log (EvDateNow t) s in
  if lt t expiresAt then
    let req := tokenRequest env s1 auth in
    let res := env_fetch env (trace s1) req in
    let s2 := after_fetch env s1 req res in
    match tokenResult res with
    | Ok (Some token) => (Ok (Some token), s2)
    | Ok None =>
        let s3 := if printedWaiting then s2
                  else notify callbacks "Waiting for authorization..." s2 in
        if has_signal callbacks then
          let b := env_aborted env (trace s3) in
          let s4 := log (EvSignalAborted b) s3 in
          if b then (Throw abort_error, s4)
          else poll_loop env fuel callbacks auth iv expiresAt true
                 (log (EvSetTimeout iv) s4)
        else poll_loop env fuel callbacks auth iv expiresAt true
               (log (EvSetTimeout iv) s3)
    | Throw e =>
        if (message e =? "expired_token")%string
        then (Ok None, notify callbacks "Device code expired, restarting..." s2)
        else (Throw e, s2)
    | OutOfFuel => (OutOfFuel, s2)
    end
  else (Ok None, s1).
Proof.
  cbn [poll_loop]. unfold bind at 1. unfold Date_now at 1. cbv zeta.
  destruct (lt (env_now env (trace s)) expiresAt); [|reflexivity].
  unfold bind at 1. unfold try_catch. unfold bind at 1.
  rewrite requestDeviceToken_run. cbv zeta.
  destruct (tokenResult _) as [[token|]|e|].
  - reflexivity.
  - unfold ret at 1. unfold bind at 1.
    unfold notify, onProgress, signal_aborted, sleep, emit, bind, ret, throw,
      abort_error.
    destruct printedWaiting; cbn [negb];
      destruct (has_onProgress callbacks); destruct (has_signal callbacks);
      try reflexivity;
      match goal with
      | |- context [env_aborted env ?l] => destruct (env_aborted env l)
      end; reflexivity.
  - unfold notify, onProgress, emit, bind, ret, throw.
    destruct (message e =? "expired_token")%string; [|reflexivity].
    destruct (has_onProgress callbacks); reflexivity.
  - reflexivity.
Qed.

Lemma loginKimiCode_S fuel callbacks s :
  loginKimiCode env (S fuel) callbacks s =
  let req := deviceAuthorizationRequest env s in
  let res := env_fetch env (trace s) req in
  let s1 := after_fetch env s req res in
  match deviceAuthorizationResult res with
  | Ok auth =>
      let s2 := log (EvOnAuth (verification_uri_complete auth)
                       ("Please visit the URL to authorize. Your code: "
                          ++ user_code auth)) s1 in
      let now := env_now env (trace s2) in
      let s3 := log (EvDateNow now) s2 in
      match poll_loop env fuel callbacks auth (interval_ms auth)
              (deadline now auth) false s3 with
      | (Ok (Some token), s4) =>
          let now' := env_now env (trace s4) in
          (Ok (credentials_at now' token), log (EvDateNow now') s4)
      | (Ok None, s4) => loginKimiCode env fuel callbacks s4
      | (Throw e, s4) => (Throw e, s4)
      | (OutOfFuel, s4) => (OutOfFuel, s4)
      end
  | Throw e => (Throw e, s1)
  | OutOfFuel => (OutOfFuel, s1)
  end.
Proof.
  cbn [loginKimiCode]. unfold bind at 1.
  rewrite requestDeviceAuthorization_run. cbv zeta.
  destruct (deviceAuthorizationResult _) as [auth|e|]; try reflexivity.
  unfold bind at 1. unfold onAuth, emit. unfold bind at 1. unfold Date_now at 1.
  cbv zeta. unfold bind at 1. unfold interval_ms, deadline.
  destruct (poll_loop _ _ _ _ _ _ _ _) as [[[token|]|e|] s4]; reflexivity.
Qed.

Lemma refreshKimiCodeToken_run credentials s :
  refreshKimiCodeToken env credentials s =
  let req := refreshRequest env s (refresh credentials) in
  let res := env_fetch env (trace s) req in
  let s1 := after_fetch env s req res in
  match refreshResult res with
  | Ok token =>
      let now := env_now env (trace s1) in
      (Ok (credentials_at now token), log (EvDateNow now) s1)
  | Throw e => (Throw e, s1)
  | OutOfFuel => (OutOfFuel, s1)
  end.
Proof.
  unfold refreshKimiCodeToken. unfold bind at 1.
  rewrite refreshAccessToken_run. cbv zeta.
  destruct (refreshResult _) as [token|e|]; reflexivity.
Qed.

End Unfolding.

(* ================================================================== *)
(** ** Histories *)

Open Scope list_scope.

Section Histories.

Variable P : Event -> list Event -> Prop.

Lemma extends_trans a b c : extends P a b -> extends P b c -> extends P a c.
Proof.
  intros Hab Hbc. induction Hbc as [|e l Hbl IH Hp].
  - exact Hab.
  - apply extends_cons; assumption.
Qed.

(** Every event of a history that grew from nothing satisfied [P] when it
    happened. *)
Lemma extends_split final :
  extends P [] final ->
  forall post e l, final = post ++ e :: l -> P e l.
Proof.
  intros H. induction H as [|e0 l0 H IH Hp]; intros post e l Heq.
  - destruct post; discriminate.
  - destruct post as [|x post]; simpl in Heq; inversion Heq; subst.
    + exact Hp.
    + eapply IH. reflexivity.
Qed.

End Histories.

Lemma slept_since_pending_keep e l :
  match e with EvFetch _ _ => False | _ => True end ->
  slept_since_pending l -> slept_since_pending (e :: l).
Proof.
  intros He H req res Hl Ht Hp.
  destruct e; try contradiction; simpl in *;
    destruct (H req res Hl Ht Hp) as [auth [Ha Hin]];
    exists auth; (split; [exact Ha | right; exact Hin]).
Qed.

Lemma is_pending_tokenResult res : tokenResult res = Ok None -> is_pending res = true.
Proof. unfold is_pending. intros ->. reflexivity. Qed.

Lemma tokenResult_settles res : tokenResult res <> OutOfFuel.
Proof.
  unfold tokenResult. destruct res as [e|response]; [discriminate|].
  destruct (status response =? 200).
  - destruct (json response) as [e|data]; [discriminate|].
    destruct (truthy_string (j_access_token data)
              && truthy_string (j_refresh_token data)); discriminate.
  - destruct (status response =? 400); [|discriminate].
    destruct (json response) as [e|data]; [discriminate|].
    destruct (strict_eq (j_error data) "authorization_pending"); [discriminate|].
    destruct (strict_eq (j_error data) "expired_token"); discriminate.
Qed.

Lemma not_pending_tokenResult res :
  tokenResult res <> Ok None -> is_pending res = false.
Proof.
  unfold is_pending. destruct (tokenResult res) as [[t|]|e|]; try reflexivity.
  intros H. contradiction H. reflexivity.
Qed.

Section Discipline.

Variable env : Env.

Definition poll_inv (auth : DeviceAuthorization) (iv : number) (l : list Event) : Prop :=
  currentAuth l = Some auth /\ iv = interval_ms auth /\
  not_aborted l /\ slept_since_pending l.

Definition poll_post (r : outcome (option TokenResponse)) (l : list Event) : Prop :=
  (not_aborted l \/ r = Throw abort_error) /\
  match r with
  | Ok (Some token) =>
      exists req res l0, l = EvFetch req res :: l0 /\
        is_token_request req = true /\ tokenResult res = Ok (Some token)
  | Ok None => slept_since_pending l
  | _ => True
  end.

Lemma poll_loop_wf fuel :
  forall callbacks auth iv expiresAt printedWaiting s r s',
    poll_inv auth iv (trace s) ->
    poll_loop env fuel callbacks auth iv expiresAt printedWaiting s = (r, s') ->
    extends (wf_event callbacks) (trace s) (trace s') /\ poll_post r (trace s').
Proof.
  induction fuel as [|fuel IH];
    intros callbacks auth iv expiresAt printedWaiting s r s'
      (Hauth & Hiv & Hna & Hsl) Hrun.
  - inversion Hrun; subst. split; [apply extends_refl|].
    split; [left; exact Hna | exact I].
  - rewrite poll_loop_S in Hrun. cbv zeta in Hrun.
    set (t := env_now env (trace s)) in *.
    set (s1 := log (EvDateNow t) s) in *.
    assert (E1 : extends (wf_event callbacks) (trace s) (trace s1)).
    { apply extends_cons; [apply extends_refl | split; [exact Hna | exact I]]. }
    assert (Hsl1 : slept_since_pending (trace s1)).
    { apply slept_since_pending_keep; [exact I | exact Hsl]. }
    destruct (lt t expiresAt).
    2:{ inversion Hrun; subst. split; [exact E1|].
        split; [left; exact I | exact Hsl1]. }
    set (req := tokenRequest env s1 auth) in *.
    set (res := env_fetch env (trace s1) req) in *.
    set (s2 := after_fetch env s1 req res) in *.
    assert (E2 : extends (wf_event callbacks) (trace s) (trace s2)).
    { apply extends_cons; [exact E1|]. split; [exact I|].
      split; [exact Hsl1|]. right. split; [reflexivity|].
      exists auth. split; [exact Hauth|]. repeat split. }
    destruct (tokenResult res) as [[token|]|e|] eqn:Hres.
    + inversion Hrun; subst. split; [exact E2|].
      split; [left; exact I|]. exists req, res, (trace s1).
      repeat split. exact Hres.
    + (* pending *)
      pose proof (is_pending_tokenResult _ Hres) as Hpend.
      set (s3 := if printedWaiting then s2
                 else notify callbacks "Waiting for authorization..." s2) in *.
      assert (H3 : trace s3 = trace s2 \/
                   exists m, trace s3 = EvOnProgress m :: trace s2).
      { subst s3. unfold notify. destruct printedWaiting; [left; reflexivity|].
        destruct (has_onProgress callbacks); [right; eexists|left]; reflexivity. }
      assert (E3 : extends (wf_event callbacks) (trace s) (trace s3)).
      { destruct H3 as [-> | [m ->]]; [exact E2|].
        apply extends_cons; [exact E2 | split; exact I]. }
      assert (Hna3 : not_aborted (trace s3)).
      { destruct H3 as [-> | [m ->]]; exact I. }
      assert (Hap3 : after_pending (trace s3)).
      { destruct H3 as [-> | [m ->]]; simpl; split; solve [reflexivity | exact Hpend]. }
      assert (Hca3 : currentAuth (trace s3) = Some auth).
      { destruct H3 as [-> | [m ->]]; simpl; rewrite Hpend; exact Hauth. }
      destruct (has_signal callbacks) eqn:Hsig.
      * set (b := env_aborted env (trace s3)) in *.
        assert (E4 : extends (wf_event callbacks) (trace s) (EvSignalAborted b :: trace s3)).
        { apply extends_cons; [exact E3|].
          split; [exact Hna3 | split; [exact Hsig | exact Hap3]]. }
        destruct b.
        -- inversion Hrun; subst. split; [exact E4|].
           split; [right; reflexivity | exact I].
        -- apply IH in Hrun.
           ++ destruct Hrun as [E5 Hpost]. split; [|exact Hpost].
              eapply extends_trans; [|exact E5].
              apply extends_cons; [exact E4|]. split; [exact I|].
              split; [exists auth; split; [exact Hca3 | exact Hiv]|].
              rewrite Hsig. exact Hap3.
           ++ repeat split.
              ** exact Hca3.
              ** exact Hiv.
              ** intros req0 res0 _ _ _. exists auth.
                 split; [exact Hca3|]. left. rewrite Hiv. reflexivity.
      * apply IH in Hrun.
        -- destruct Hrun as [E5 Hpost]. split; [|exact Hpost].
           eapply extends_trans; [|exact E5].
           apply extends_cons; [exact E3|]. split; [exact Hna3|].
           split; [exists auth; split; [exact Hca3 | exact Hiv]|].
           rewrite Hsig. exact Hap3.
        -- repeat split.
           ** exact Hca3.
           ** exact Hiv.
           ** intros req0 res0 _ _ _. exists auth.
              split; [exact Hca3|]. left. rewrite Hiv. reflexivity.
    + (* the poll threw *)
      assert (Hnp : is_pending res = false).
      { apply not_pending_tokenResult. rewrite Hres. discriminate. }
      destruct (message e =? "expired_token")%string.
      * inversion Hrun; subst. unfold notify.
        destruct (has_onProgress callbacks); cbn [trace log].
        -- split; [apply extends_cons; [exact E2 | split; exact I]|].
           split; [left; exact I|].
           intros req0 res0 Hl _ Hp. simpl in Hl. inversion Hl; subst.
           fold res in Hp. congruence.
        -- split; [exact E2|]. split; [left; exact I|].
           intros req0 res0 Hl _ Hp. simpl in Hl. inversion Hl; subst.
           fold res in Hp. congruence.
      * inversion Hrun; subst. split; [exact E2|].
        split; [left; exact I | exact I].
    + inversion Hrun; subst. split; [exact E2|].
      split; [left; exact I | exact I].
Qed.

Definition login_post (r : outcome OAuthCredentials) (l : list Event) : Prop :=
  (not_aborted l \/ r = Throw abort_error) /\
  forall credentials, r = Ok credentials ->
    exists now req res l0 token,
      l = EvDateNow now :: EvFetch req res :: l0 /\
      is_token_request req = true /\
      tokenResult res = Ok (Some token) /\
      credentials = credentials_at now token.

Lemma loginKimiCode_wf fuel :
  forall callbacks s r s',
    not_aborted (trace s) -> slept_since_pending (trace s) ->
    loginKimiCode env fuel callbacks s = (r, s') ->
    extends (wf_event callbacks) (trace s) (trace s') /\ login_post r (trace s').
Proof.
  induction fuel as [|fuel IH]; intros callbacks s r s' Hna Hsl Hrun.
  - inversion Hrun; subst. split; [apply extends_refl|].
    split; [left; exact Hna | discriminate].
  - rewrite loginKimiCode_S in Hrun. cbv zeta in Hrun.
    set (req := deviceAuthorizationRequest env s) in *.
    set (res := env_fetch env (trace s) req) in *.
    set (s1 := after_fetch env s req res) in *.
    assert (E1 : extends (wf_event callbacks) (trace s) (trace s1)).
    { apply extends_cons; [apply extends_refl|]. split; [exact Hna|].
      split; [exact Hsl|]. left. split; reflexivity. }
    destruct (deviceAuthorizationResult res) as [auth|e|] eqn:Hres.
    2,3: inversion Hrun; subst; split;
         [exact E1 | split; [left; exact I | discriminate]].
    set (s2 := log (EvOnAuth (verification_uri_complete auth)
                      ("Please visit the URL to authorize. Your code: "
                         ++ user_code auth)%string) s1) in *.
    set (now := env_now env (trace s2)) in *.
    set (s3 := log (EvDateNow now) s2) in *.
    assert (E3 : extends (wf_event callbacks) (trace s) (trace s3)).
    { apply extends_cons; [apply extends_cons; [exact E1|]|]; split; exact I. }
    destruct (poll_loop env fuel callbacks auth (interval_ms auth)
                (deadline now auth) false s3) as [rp s4] eqn:Hpoll.
    apply poll_loop_wf in Hpoll.
    2:{ repeat split.
        - cbn [trace log s3 s2 s1 after_fetch currentAuth].
          change (is_device_request req) with true. cbv iota.
          fold res. rewrite Hres. reflexivity.
        - intros req0 res0 Hl Ht _. simpl in Hl. inversion Hl; subst.
          discriminate Ht. }
    destruct Hpoll as [E4 [Hab Hpost]].
    assert (E4' : extends (wf_event callbacks) (trace s) (trace s4))
      by (eapply extends_trans; eassumption).
    destruct rp as [[token|]|e|].
    + inversion Hrun; subst. cbn [trace log].
      destruct Hpost as (req1 & res1 & l0 & Hl & Ht & Hr).
      split.
      * apply extends_cons; [exact E4'|]. rewrite Hl. split; exact I.
      * split; [left; exact I|]. intros c Hc. inversion Hc; subst.
        exists (env_now env (trace s4)), req1, res1, l0, token.
        rewrite Hl. repeat split; assumption.
    + destruct Hab as [Hna4 | Habs]; [|discriminate].
      apply IH in Hrun; [|exact Hna4 | exact Hpost].
      destruct Hrun as [E5 Hp5]. split; [|exact Hp5].
      eapply extends_trans; eassumption.
    + inversion Hrun; subst. split; [exact E4'|].
      split; [|discriminate].
      destruct Hab as [Hna4 | Habs]; [left; exact Hna4 | right].
      inversion Habs. reflexivity.
    + inversion Hrun; subst. split; [exact E4'|].
      split; [|discriminate].
      destruct Hab as [Hna4 | Habs]; [left; exact Hna4 | discriminate].
Qed.

End Discipline.

(* ================================================================== *)
(** ** Reading a history across a stretch without requests *)

Lemma no_fetch_cons e mid :
  no_fetch (e :: mid) ->
  match e with EvFetch _ _ => False | _ => True end /\ no_fetch mid.
Proof.
  intros H. split.
  - destruct e; try exact I. apply (H req res). left. reflexivity.
  - intros req res Hin. apply (H req res). right. exact Hin.
Qed.

Lemma lastFetch_app mid l :
  no_fetch mid -> lastFetch (mid ++ l) = lastFetch l.
Proof.
  induction mid as [|e mid IH]; intros H; [reflexivity|].
  apply no_fetch_cons in H. destruct H as [He Hmid].
  destruct e; try contradiction; simpl; apply IH; exact Hmid.
Qed.

Lemma sinceFetch_app mid req res l :
  no_fetch mid -> sinceFetch (mid ++ EvFetch req res :: l) = mid.
Proof.
  induction mid as [|e mid IH]; intros H; [reflexivity|].
  apply no_fetch_cons in H. destruct H as [He Hmid].
  destruct e; try contradiction; simpl; rewrite IH; auto.
Qed.

Lemma currentAuth_app mid l :
  no_fetch mid -> currentAuth (mid ++ l) = currentAuth l.
Proof.
  induction mid as [|e mid IH]; intros H; [reflexivity|].
  apply no_fetch_cons in H. destruct H as [He Hmid].
  destruct e; try contradiction; simpl; apply IH; exact Hmid.
Qed.

Lemma token_not_device req :
  is_token_request req = true -> is_device_request req = false.
Proof.
  unfold is_token_request, is_device_request. intros H.
  apply String.eqb_eq in H. rewrite H. reflexivity.
Qed.

Lemma expired_not_pending res : is_expired res = true -> is_pending res = false.
Proof.
  unfold is_expired, is_pending.
  destruct (tokenResult res) as [[t|]|e|]; intros H; congruence.
Qed.

(** An authorization in force that was not in force at [base] was granted by
    a device-authorization answer received after [base]. *)
Lemma currentAuth_origin mid base auth :
  currentAuth (mid ++ base) = Some auth ->
  currentAuth base = None ->
  exists newer req res older,
    mid = newer ++ EvFetch req res :: older /\
    is_device_request req = true /\
    deviceAuthorizationResult res = Ok auth.
Proof.
  induction mid as [|e mid IH]; intros H Hb; simpl in H; [congruence|].
  assert (Hrec : currentAuth (mid ++ base) = Some auth ->
                 exists newer req res older,
                   e :: mid = newer ++ EvFetch req res :: older /\
                   is_device_request req = true /\
                   deviceAuthorizationResult res = Ok auth).
  { intros H'. destruct (IH H' Hb) as (newer & req & res & older & -> & Hd & Hr).
    exists (e :: newer), req, res, older. repeat split; assumption. }
  destruct e as [req res| | | | |]; try (apply Hrec; exact H).
  destruct (is_device_request req) eqn:Hd.
  - destruct (deviceAuthorizationResult res) as [a|e'|] eqn:Hr; try discriminate.
    inversion H; subst. exists [], req, res, mid. repeat split; assumption.
  - destruct (is_pending res); [apply Hrec; exact H | discriminate].
Qed.

Section LoginFacts.

Variable env : Env.

(** The discipline holds for a whole login started in a fresh history. *)
Lemma login_events fuel callbacks id r s' :
  loginKimiCode env fuel callbacks (initial id) = (r, s') ->
  (forall post e l, trace s' = post ++ e :: l -> wf_event callbacks e l) /\
  login_post r (trace s').
Proof.
  intros Hrun. apply loginKimiCode_wf in Hrun.
  - destruct Hrun as [E Hp]. split; [|exact Hp].
    intros post e l Heq. eapply extends_split; [exact E | exact Heq].
  - exact I.
  - intros req res Hl. discriminate Hl.
Qed.

End LoginFacts.

(* ================================================================== *)
(** ** After the answer to a poll *)

Lemma quiet_follows env callbacks e l : quiet l -> follows env callbacks e l.
Proof.
  destruct l as [|[| | | | |] [|[| | | | |] l']]; simpl; intros H;
    try contradiction; exact I.
Qed.

Lemma quiet_now_follows env callbacks e t l :
  quiet l -> follows env callbacks e (EvDateNow t :: l).
Proof.
  destruct l as [|[| | | | |] l']; simpl; intros H; try contradiction; exact I.
Qed.

Lemma pending_follows env callbacks e req res l :
  is_pending res = true -> follows env callbacks e (EvFetch req res :: l).
Proof.
  intros Hp. cbn [follows]. intros _. split.
  - intros token H. unfold is_pending in Hp. rewrite H in Hp. discriminate.
  - intros Hx. rewrite (expired_not_pending _ Hx) in Hp. discriminate.
Qed.

Lemma pending_notice_follows env callbacks e m req res l :
  is_pending res = true ->
  follows env callbacks e (EvOnProgress m :: EvFetch req res :: l).
Proof.
  intros Hp. cbn [follows]. intros _ Hx.
  rewrite (expired_not_pending _ Hx) in Hp. discriminate.
Qed.

Lemma device_request_fetch env s res :
  is_device_fetch (EvFetch (deviceAuthorizationRequest env s) res).
Proof. eexists _, _. repeat split. Qed.

Lemma turn_over_follows env callbacks s res l :
  l = [] \/ turn_over callbacks l ->
  follows env callbacks (EvFetch (deviceAuthorizationRequest env s) res) l.
Proof.
  intros [-> | [(t & l0 & -> & Hq) | (req & rs & l0 & -> & Ht & Hx)]].
  - exact I.
  - apply quiet_now_follows. exact Hq.
  - destruct (has_onProgress callbacks) eqn:Hon; cbn [app follows].
    + intros _ _. apply device_request_fetch.
    + intros _. split.
      * intros token H. unfold is_expired in Hx. rewrite H in Hx. discriminate.
      * intros _. rewrite Hon. apply device_request_fetch.
Qed.

Section Settling.

Variable env : Env.

(** How a polling loop leaves the history, by its result. *)
Definition poll_end (callbacks : OAuthLoginCallbacks)
    (r : outcome (option TokenResponse)) (l : list Event) : Prop :=
  match r with
  | Ok (Some token) =>
      exists req res l0, l = EvFetch req res :: l0 /\
        is_token_request req = true /\ tokenResult res = Ok (Some token)
  | Ok None => turn_over callbacks l
  | Throw e =>
      (exists l0, l = EvSignalAborted true :: l0) \/
      (exists req res l0, l = EvFetch req res :: l0 /\
         tokenResult res = Throw e /\ is_expired res = false)
  | OutOfFuel => quiet l
  end.

Lemma poll_loop_settles fuel :
  forall callbacks auth iv expiresAt printedWaiting s r s',
    quiet (trace s) ->
    poll_loop env fuel callbacks auth iv expiresAt printedWaiting s = (r, s') ->
    extends (follows env callbacks) (trace s) (trace s') /\
    poll_end callbacks r (trace s').
Proof.
  induction fuel as [|fuel IH];
    intros callbacks auth iv expiresAt printedWaiting s r s' Hq Hrun.
  - inversion Hrun; subst. split; [apply extends_refl | exact Hq].
  - rewrite poll_loop_S in Hrun. cbv zeta in Hrun.
    set (t := env_now env (trace s)) in *.
    set (s1 := log (EvDateNow t) s) in *.
    assert (E1 : extends (follows env callbacks) (trace s) (trace s1)).
    { apply extends_cons; [apply extends_refl | apply quiet_follows; exact Hq]. }
    destruct (lt t expiresAt).
    2:{ inversion Hrun; subst. split; [exact E1|].
        left. exists t, (trace s). split; [reflexivity | exact Hq]. }
    set (req := tokenRequest env s1 auth) in *.
    set (res := env_fetch env (trace s1) req) in *.
    set (s2 := after_fetch env s1 req res) in *.
    assert (E2 : extends (follows env callbacks) (trace s) (trace s2)).
    { apply extends_cons; [exact E1 | apply quiet_now_follows; exact Hq]. }
    destruct (tokenResult res) as [[token|]|e|] eqn:Hres.
    + inversion Hrun; subst. split; [exact E2|].
      exists req, res, (trace s1). repeat split. exact Hres.
    + (* pending *)
      pose proof (is_pending_tokenResult _ Hres) as Hpend.
      set (s3 := if printedWaiting then s2
                 else notify callbacks "Waiting for authorization..." s2) in *.
      assert (H3 : trace s3 = trace s2 \/
                   exists m, trace s3 = EvOnProgress m :: trace s2).
      { subst s3. unfold notify. destruct printedWaiting; [left; reflexivity|].
        destruct (has_onProgress callbacks); [right; eexists|left]; reflexivity. }
      assert (E3 : extends (follows env callbacks) (trace s) (trace s3)).
      { destruct H3 as [-> | [m ->]]; [exact E2|].
        apply extends_cons; [exact E2 | apply pending_follows; exact Hpend]. }
      assert (F3 : forall e, follows env callbacks e (trace s3)).
      { intros e. destruct H3 as [-> | [m ->]];
          [apply pending_follows | apply pending_notice_follows]; exact Hpend. }
      destruct (has_signal callbacks).
      * set (b := env_aborted env (trace s3)) in *.
        assert (E4 : extends (follows env callbacks) (trace s)
                       (EvSignalAborted b :: trace s3)).
        { apply extends_cons; [exact E3 | apply F3]. }
        destruct b.
        -- inversion Hrun; subst. split; [exact E4|].
           left. eexists. reflexivity.
        -- apply IH in Hrun; [|exact I].
           destruct Hrun as [E5 Hpost]. split; [|exact Hpost].
           eapply extends_trans; [|exact E5].
           apply extends_cons; [exact E4 | exact I].
      * apply IH in Hrun; [|exact I].
        destruct Hrun as [E5 Hpost]. split; [|exact Hpost].
        eapply extends_trans; [|exact E5].
        apply extends_cons; [exact E3 | apply F3].
    + (* the poll threw *)
      destruct (message e =? "expired_token")%string eqn:Hmsg.
      * assert (Hx : is_expired res = true).
        { unfold is_expired. rewrite Hres. exact Hmsg. }
        inversion Hrun; subst. unfold notify.
        destruct (has_onProgress callbacks) eqn:Hon; cbn [trace log].
        -- split.
           ++ apply extends_cons; [exact E2|]. cbn [trace s2 after_fetch follows].
              intros _. split.
              ** intros token H. fold res in H. congruence.
              ** intros _. rewrite Hon. reflexivity.
           ++ right. exists req, res, (trace s1). rewrite Hon.
              repeat split. exact Hx.
        -- split; [exact E2|].
           right. exists req, res, (trace s1). rewrite Hon.
           repeat split. exact Hx.
      * inversion Hrun; subst. split; [exact E2|].
        right. exists req, res, (trace s1).
        split; [reflexivity|]. split; [exact Hres|].
        unfold is_expired. rewrite Hres. exact Hmsg.
    + inversion Hrun; subst. split; [exact E2|].
      exfalso. revert Hres. apply tokenResult_settles.
Qed.

(** How a login leaves the history. *)
Definition login_end (r : outcome OAuthCredentials) (l : list Event) : Prop :=
  match l with
  | EvFetch req res :: _ =>
      is_token_request req = true ->
      exists e, tokenResult res = Throw e /\ is_expired res = false /\ r = Throw e
  | EvOnProgress _ :: EvFetch req res :: _ =>
      is_token_request req = true -> is_expired res = false
  | EvDateNow now :: (EvFetch req res :: _) as l0 =>
      is_token_request req = true ->
      forall token, tokenResult res = Ok (Some token) ->
        now = env_now env l0 /\ r = Ok (credentials_at now token)
  | _ => True
  end.

Lemma quiet_login_end r l : quiet l -> login_end r l.
Proof.
  destruct l as [|[| | | | |] [|[| | | | |] l']]; simpl; intros H;
    try contradiction; exact I.
Qed.

Lemma loginKimiCode_settles fuel :
  forall callbacks s r s',
    trace s = [] \/ turn_over callbacks (trace s) ->
    loginKimiCode env fuel callbacks s = (r, s') ->
    extends (follows env callbacks) (trace s) (trace s') /\
    (fuel <> O -> login_end r (trace s')).
Proof.
  induction fuel as [|fuel IH]; intros callbacks s r s' Hstart Hrun.
  - inversion Hrun; subst. split; [apply extends_refl|].
    intros H. contradiction H. reflexivity.
  - rewrite loginKimiCode_S in Hrun. cbv zeta in Hrun.
    set (req := deviceAuthorizationRequest env s) in *.
    set (res := env_fetch env (trace s) req) in *.
    set (s1 := after_fetch env s req res) in *.
    assert (E1 : extends (follows env callbacks) (trace s) (trace s1)).
    { apply extends_cons; [apply extends_refl|].
      apply turn_over_follows. exact Hstart. }
    assert (End1 : forall r0, login_end r0 (trace s1)).
    { intros r0. cbn [trace s1 after_fetch login_end]. intros H. discriminate H. }
    destruct (deviceAuthorizationResult res) as [auth|e|] eqn:Hres.
    2,3: inversion Hrun; subst; split; [exact E1 | intros _; apply End1].
    set (s2 := log (EvOnAuth (verification_uri_complete auth)
                      ("Please visit the URL to authorize. Your code: "
                         ++ user_code auth)%string) s1) in *.
    set (now := env_now env (trace s2)) in *.
    set (s3 := log (EvDateNow now) s2) in *.
    assert (E3 : extends (follows env callbacks) (trace s) (trace s3)).
    { apply extends_cons; [apply extends_cons; [exact E1|]|].
      - cbn [trace s1 after_fetch follows]. intros H. discriminate H.
      - exact I. }
    destruct (poll_loop env fuel callbacks auth (interval_ms auth)
                (deadline now auth) false s3) as [rp s4] eqn:Hpoll.
    assert (Hfuel : rp = Ok None -> fuel <> O).
    { intros -> ->. discriminate Hpoll. }
    apply poll_loop_settles in Hpoll; [|exact I].
    destruct Hpoll as [E4 Hend].
    assert (E4' : extends (follows env callbacks) (trace s) (trace s4))
      by (eapply extends_trans; eassumption).
    destruct rp as [[token|]|e|]; cbn [poll_end] in Hend.
    + inversion Hrun; subst. cbn [trace log].
      destruct Hend as (req1 & res1 & l0 & Hl & Ht & Hr).
      split.
      * apply extends_cons; [exact E4'|]. rewrite Hl. cbn [follows].
        intros _. split; [intros; reflexivity|].
        intros Hx. unfold is_expired in Hx. rewrite Hr in Hx. discriminate.
      * intros _. rewrite Hl. cbn [login_end]. intros _ token' Htok.
        assert (token' = token) by congruence. subst token'.
        split; reflexivity.
    + apply IH in Hrun; [|right; exact Hend].
      destruct Hrun as [E5 Hp5]. split.
      * eapply extends_trans; eassumption.
      * intros _. apply Hp5. apply Hfuel. reflexivity.
    + inversion Hrun; subst. split; [exact E4'|]. intros _.
      destruct Hend as [(l0 & ->) | (req1 & res1 & l0 & -> & Hr & Hx)].
      * exact I.
      * cbn [login_end]. intros _. exists e. repeat split; assumption.
    + inversion Hrun; subst. split; [exact E4'|]. intros _.
      apply quiet_login_end. exact Hend.
Qed.

(** Both hold for a whole login started in a fresh history. *)
Lemma login_settles fuel callbacks id r s' :
  loginKimiCode env fuel callbacks (initial id) = (r, s') ->
  (forall post e l, trace s' = post ++ e :: l -> follows env callbacks e l) /\
  login_end r (trace s').
Proof.
  intros Hrun. pose proof Hrun as Hrun0.
  apply loginKimiCode_settles in Hrun; [|left; reflexivity].
  destruct Hrun as [E Hend]. split.
  - intros post e l Heq. eapply extends_split; [exact E | exact Heq].
  - destruct fuel as [|fuel]; [|apply Hend; discriminate].
    inversion Hrun0; subst. exact I.
Qed.

(** A poll that brings the token is followed by one clock reading and the
    return of the credentials built from both. *)
Lemma login_token_settles fuel callbacks id r s' post req res l token :
  loginKimiCode env fuel callbacks (initial id) = (r, s') ->
  trace s' = post ++ EvFetch req res :: l ->
  is_token_request req = true ->
  tokenResult res = Ok (Some token) ->
  post = [EvDateNow (env_now env (EvFetch req res :: l))] /\
  r = Ok (credentials_at (env_now env (EvFetch req res :: l)) token).
Proof.
  intros Hrun Heq Ht Hres.
  destruct (login_settles _ _ _ _ _ Hrun) as [Hf Hend].
  destruct post as [|e post] using rev_ind.
  - simpl in Heq. rewrite Heq in Hend. cbn [login_end] in Hend.
    destruct (Hend Ht) as (err & Herr & _). congruence.
  - clear IHpost. rewrite <- app_assoc in Heq. simpl in Heq.
    pose proof (Hf _ _ _ Heq) as He. cbn [follows] in He.
    destruct (He Ht) as [Hnow _]. specialize (Hnow _ Hres). subst e.
    destruct post as [|e' post] using rev_ind.
    + simpl in Heq. rewrite Heq in Hend. cbn [login_end] in Hend.
      destruct (Hend Ht _ Hres) as [_ Hr]. split; [reflexivity | exact Hr].
    + clear IHpost. rewrite <- app_assoc in Heq. simpl in Heq.
      pose proof (Hf _ _ _ Heq) as He'. cbn [follows] in He'.
      exfalso. exact (He' Ht _ Hres).
Qed.

(** A poll that finds the device code expired is followed by the notice of
    it, when the host takes notices, and then by a device-authorization
    request. *)
Lemma login_expiry_restarts fuel callbacks id r s' post req res l :
  loginKimiCode env fuel callbacks (initial id) = (r, s') ->
  trace s' = post ++ EvFetch req res :: l ->
  is_token_request req = true ->
  is_expired res = true ->
  exists post' e,
    post = post' ++ e :: (if has_onProgress callbacks
                          then [EvOnProgress expiry_notice] else []) /\
    is_device_fetch e.
Proof.
  intros Hrun Heq Ht Hx.
  destruct (login_settles _ _ _ _ _ Hrun) as [Hf Hend].
  destruct post as [|e post] using rev_ind.
  - simpl in Heq. rewrite Heq in Hend. cbn [login_end] in Hend.
    destruct (Hend Ht) as (err & _ & Hn & _). congruence.
  - clear IHpost. rewrite <- app_assoc in Heq. simpl in Heq.
    pose proof (Hf _ _ _ Heq) as He. cbn [follows] in He.
    destruct (He Ht) as [_ Hnext]. specialize (Hnext Hx).
    destruct (has_onProgress callbacks).
    + subst e. destruct post as [|e' post] using rev_ind.
      * simpl in Heq. rewrite Heq in Hend. cbn [login_end] in Hend.
        specialize (Hend Ht). congruence.
      * clear IHpost. rewrite <- app_assoc in Heq. simpl in Heq.
        pose proof (Hf _ _ _ Heq) as He'. cbn [follows] in He'.
        exists post, e'. split; [rewrite <- app_assoc; reflexivity|].
        exact (He' Ht Hx).
    + exists post, e. split; [reflexivity | exact Hnext].
Qed.

End Settling.

(* ================================================================== *)
(** ** Device authorization: defaults and required fields *)

(** C4. A successful device-authorization answer that leaves out
    [expires_in] yields a [DeviceAuthorization] with lifetime 1800, and one
    that leaves out [interval] yields poll interval 5. *)
Theorem C4_defaults_when_absent (env : Env) (s : State)
    (response : Response) (data : Json) :
  env_fetch env (trace s) (deviceAuthorizationRequest env s) = inr response ->
  ok response = true ->
  json response = inr data ->
  truthy_string (j_user_code data) = true ->
  truthy_string (j_device_code data) = true ->
  truthy_string (j_verification_uri_complete data) = true ->
  exists auth,
    fst (requestDeviceAuthorization env s) = Ok auth /\
    (j_expires_in data = None -> expires_in auth = 1800) /\
    (j_interval data = None -> interval auth = 5).
Proof.
  intros Hfetch Hok Hjson Hu Hd Hv.
  rewrite requestDeviceAuthorization_run. cbv zeta. cbn [fst].
  rewrite Hfetch. unfold deviceAuthorizationResult.
  rewrite Hok, Hjson, Hu, Hd, Hv. cbn [negb orb].
  eexists. split; [reflexivity|]. cbn [expires_in interval].
  split; intros ->; reflexivity.
Qed.

Lemma C4_defaults_when_absent_witness :
  exists auth,
    fst (requestDeviceAuthorization Script.no_lifetime (initial None)) = Ok auth /\
    expires_in auth = 1800 /\ interval auth = 5.
Proof.
  destruct (C4_defaults_when_absent Script.no_lifetime (initial None)
              (mkResponse 200
                 (inr (Script.device_json "ABCD-1234" "dc1" None None)) None)
              (Script.device_json "ABCD-1234" "dc1" None None)
              eq_refl eq_refl eq_refl eq_refl eq_refl eq_refl)
    as (auth & Hrun & He & Hi).
  exists auth. split; [exact Hrun|].
  split; [apply He | apply Hi]; reflexivity.
Defined.

(** C9. A successful device-authorization answer that reports
    [expires_in] or [interval] as 0 gets the default (1800, 5) in place of
    the 0: the default is taken for any falsy value, not only for an absent
    one. *)
Theorem C9_defaults_when_zero (env : Env) (s : State)
    (response : Response) (data : Json) :
  env_fetch env (trace s) (deviceAuthorizationRequest env s) = inr response ->
  ok response = true ->
  json response = inr data ->
  truthy_string (j_user_code data) = true ->
  truthy_string (j_device_code data) = true ->
  truthy_string (j_verification_uri_complete data) = true ->
  exists auth,
    fst (requestDeviceAuthorization env s) = Ok auth /\
    (j_expires_in data = Some 0 -> expires_in auth = 1800) /\
    (j_interval data = Some 0 -> interval auth = 5) /\
    (forall n, j_expires_in data = Some n -> n <> 0 -> expires_in auth = n) /\
    (forall n, j_interval data = Some n -> n <> 0 -> interval auth = n).
Proof.
  intros Hfetch Hok Hjson Hu Hd Hv.
  rewrite requestDeviceAuthorization_run. cbv zeta. cbn [fst].
  rewrite Hfetch. unfold deviceAuthorizationResult.
  rewrite Hok, Hjson, Hu, Hd, Hv. cbn [negb orb].
  eexists. split; [reflexivity|]. cbn [expires_in interval].
  repeat split.
  - intros ->. reflexivity.
  - intros ->. reflexivity.
  - intros n -> Hn. unfold or_number.
    destruct (Z.eqb_spec n 0); [contradiction | reflexivity].
  - intros n -> Hn. unfold or_number.
    destruct (Z.eqb_spec n 0); [contradiction | reflexivity].
Qed.

Lemma C9_defaults_when_zero_witness :
  exists auth,
    fst (requestDeviceAuthorization Script.zero_lifetime (initial None)) = Ok auth /\
    expires_in auth = 1800 /\ interval auth = 5.
Proof.
  destruct (C9_defaults_when_zero Script.zero_lifetime (initial None)
              (mkResponse 200
                 (inr (Script.device_json "ABCD-1234" "dc1" (Some 0) (Some 0))) None)
              (Script.device_json "ABCD-1234" "dc1" (Some 0) (Some 0))
              eq_refl eq_refl eq_refl eq_refl eq_refl eq_refl)
    as (auth & Hrun & He & Hi & _).
  exists auth. split; [exact Hrun|].
  split; [apply He | apply Hi]; reflexivity.
Defined.

(** A required property that is absent or the empty string. *)
Definition absent_or_empty (v : option string) : Prop :=
  v = None \/ v = Some ""%string.

Lemma absent_or_empty_falsy v : absent_or_empty v -> truthy_string v = false.
Proof. intros [-> | ->]; reflexivity. Qed.

(** C10. A required property that is present but the empty string counts
    as absent.  A 200 device-authorization answer whose [user_code],
    [device_code] or [verification_uri_complete] is [""] (or absent) fails
    with the malformed-response error, and a 200 token answer whose
    [access_token] or [refresh_token] is [""] (or absent) fails with the
    missing-required-fields error instead of returning a token. *)
Theorem C10_empty_string_is_absent (env : Env) (s : State)
    (response : Response) (data : Json) :
  status response = 200 ->
  json response = inr data ->
  (env_fetch env (trace s) (deviceAuthorizationRequest env s) = inr response ->
   absent_or_empty (j_user_code data) \/
   absent_or_empty (j_device_code data) \/
   absent_or_empty (j_verification_uri_complete data) ->
   fst (requestDeviceAuthorization env s) =
   Throw (Error "Invalid device authorization response")) /\
  (forall auth,
   env_fetch env (trace s) (tokenRequest env s auth) = inr response ->
   absent_or_empty (j_access_token data) \/
   absent_or_empty (j_refresh_token data) ->
   fst (requestDeviceToken env auth s) =
   Throw (Error "Token response missing required fields")).
Proof.
  intros Hst Hjson. split.
  - intros Hfetch Hempty.
    rewrite requestDeviceAuthorization_run. cbv zeta. cbn [fst].
    rewrite Hfetch. unfold deviceAuthorizationResult, ok.
    rewrite Hst, Hjson. cbn [Z.leb Z.compare Pos.compare Pos.compare_cont andb negb].
    destruct Hempty as [H | [H | H]]; apply absent_or_empty_falsy in H;
      rewrite H; cbn [negb orb]; rewrite ?orb_true_r; reflexivity.
  - intros auth Hfetch Hempty.
    rewrite requestDeviceToken_run. cbv zeta. cbn [fst].
    rewrite Hfetch. unfold tokenResult.
    rewrite Hst, Hjson. cbn [Z.eqb Pos.eqb].
    destruct Hempty as [H | H]; apply absent_or_empty_falsy in H;
      rewrite H; rewrite ?andb_false_r; reflexivity.
Qed.

Lemma C10_empty_string_is_absent_witness :
  fst (requestDeviceAuthorization Script.empty_user_code (initial None)) =
  Throw (Error "Invalid device authorization response") /\
  fst (requestDeviceToken Script.empty_access_token Script.auth1 (initial None)) =
  Throw (Error "Token response missing required fields").
Proof.
  split.
  - apply (proj1 (C10_empty_string_is_absent Script.empty_user_code (initial None)
                    (mkResponse 200
                       (inr (Script.device_json "" "dc1" (Some 1800) (Some 5))) None)
                    (Script.device_json "" "dc1" (Some 1800) (Some 5))
                    eq_refl eq_refl)).
    + reflexivity.
    + left. right. reflexivity.
  - apply (proj2 (C10_empty_string_is_absent Script.empty_access_token (initial None)
                    (mkResponse 200
                       (inr (Script.token_json "" "rt1" (Some 3600))) None)
                    (Script.token_json "" "rt1" (Some 3600))
                    eq_refl eq_refl) Script.auth1).
    + reflexivity.
    + left. right. reflexivity.
Defined.

(* ================================================================== *)
(** ** One poll, one refresh: how the answer is classified *)

Lemma strict_eq_true v s : strict_eq v s = true <-> v = Some s.
Proof.
  destruct v as [x|]; simpl.
  - rewrite String.eqb_eq. split; [intros ->; reflexivity | congruence].
  - split; discriminate.
Qed.

Lemma strict_eq_false v s : v <> Some s -> strict_eq v s = false.
Proof.
  intros H. destruct (strict_eq v s) eqn:E; [|reflexivity].
  apply strict_eq_true in E. contradiction.
Qed.

(** C2, as the specification words it, fails: a 200 answer in which
    [access_token] and [refresh_token] are both present does not return a
    token when one of them is the empty string. *)
Lemma C2_counterexample :
  let data := Script.token_json "" "rt1" (Some 3600) in
  let response := mkResponse 200 (inr data) None in
  let s := initial None in
  env_fetch Script.empty_access_token (trace s)
    (tokenRequest Script.empty_access_token s Script.auth1) = inr response /\
  status response = 200 /\
  j_access_token data <> None /\
  j_refresh_token data <> None /\
  fst (requestDeviceToken Script.empty_access_token Script.auth1 s) =
  Throw (Error "Token response missing required fields").
Proof.
  cbv zeta. repeat split; try reflexivity; discriminate.
Qed.

(** C2, amended.  [requestDeviceToken] sends exactly one POST to the token
    endpoint and classifies the answer: 200 with [access_token] and
    [refresh_token] both present and non-empty returns the token; 200 with
    one of them absent or empty is fatal; 400 with
    [error = "authorization_pending"] returns "no token yet"; 400 with
    [error = "expired_token"] throws the error whose message is
    ["expired_token"]; any other 400 and any other status is fatal with a
    different message.  No error the function raises itself shares the
    expiry message. *)
Theorem C2_poll_classification (env : Env) (auth : DeviceAuthorization)
    (s : State) (r : outcome (option TokenResponse)) (s' : State) :
  requestDeviceToken env auth s = (r, s') ->
  let req := tokenRequest env s auth in
  trace s' = EvFetch req (env_fetch env (trace s) req) :: trace s /\
  method req = "POST"%string /\
  url req = TOKEN_URL /\
  forall response, env_fetch env (trace s) req = inr response ->
    (forall data, status response = 200 -> json response = inr data ->
       (truthy_string (j_access_token data) = true ->
        truthy_string (j_refresh_token data) = true ->
        r = Ok (Some (as_TokenResponse data))) /\
       (truthy_string (j_access_token data) = false \/
        truthy_string (j_refresh_token data) = false ->
        r = Throw (Error "Token response missing required fields"))) /\
    (forall data, status response = 400 -> json response = inr data ->
       (j_error data = Some "authorization_pending"%string -> r = Ok None) /\
       (j_error data = Some "expired_token"%string ->
        r = Throw (Error "expired_token")) /\
       (j_error data <> Some "authorization_pending"%string ->
        j_error data <> Some "expired_token"%string ->
        r = Throw (Error ("Token request failed: "
                            ++ or_string (j_error_description data)
                                 (or_string (j_error data) "unknown"))%string))) /\
    (status response <> 200 -> status response <> 400 ->
     r = Throw (Error ("Token request failed: " ++ show (status response)
                         ++ " " ++ text_or_empty response)%string)) /\
    (forall e, r = Throw e -> message e = "expired_token"%string ->
       (status response = 400 /\
        exists data, json response = inr data /\
                     j_error data = Some "expired_token"%string) \/
       json response = inl e).
Proof.
  intros Hrun req. rewrite requestDeviceToken_run in Hrun. cbv zeta in Hrun.
  fold req in Hrun. inversion Hrun as [[Hr Hs]]. clear Hrun.
  split; [reflexivity|]. split; [reflexivity|]. split; [reflexivity|].
  intros response Hfetch. rewrite Hfetch. unfold tokenResult.
  split; [|split; [|split]].
  - intros data Hst Hjson. rewrite Hst, Z.eqb_refl, Hjson. split.
    + intros Ha Hrf. rewrite Ha, Hrf. reflexivity.
    + intros [Hf | Hf]; rewrite Hf; rewrite ?andb_false_r; reflexivity.
  - intros data Hst Hjson. rewrite Hst, Hjson.
    change (400 =? 200) with false. change (400 =? 400) with true. cbv iota.
    split; [|split].
    + intros He. rewrite He. reflexivity.
    + intros He. rewrite He. reflexivity.
    + intros Hn1 Hn2.
      rewrite (strict_eq_false _ _ Hn1), (strict_eq_false _ _ Hn2). reflexivity.
  - intros Hn2 Hn4.
    destruct (Z.eqb_spec (status response) 200); [contradiction|].
    destruct (Z.eqb_spec (status response) 400); [contradiction|]. reflexivity.
  - intros e He Hm.
    destruct (Z.eqb_spec (status response) 200).
    + destruct (json response) as [e'|data]; [right; congruence|].
      destruct (truthy_string (j_access_token data)
                && truthy_string (j_refresh_token data)); [discriminate|].
      inversion He; subst. discriminate Hm.
    + destruct (Z.eqb_spec (status response) 400).
      * destruct (json response) as [e'|data]; [right; congruence|].
        destruct (strict_eq (j_error data) "authorization_pending");
          [discriminate|].
        destruct (strict_eq (j_error data) "expired_token") eqn:Hx.
        -- left. split; [assumption|]. exists data. split; [reflexivity|].
           apply strict_eq_true. exact Hx.
        -- inversion He; subst. discriminate Hm.
      * inversion He; subst. discriminate Hm.
Qed.

Lemma C2_poll_classification_witness :
  fst (requestDeviceToken Script.one_token Script.auth1 (initial None)) =
    Ok (Some (mkTokenResponse "at1" "rt1" (Some 3600) None None)) /\
  fst (requestDeviceToken Script.one_pending Script.auth1 (initial None)) = Ok None /\
  fst (requestDeviceToken Script.one_expired Script.auth1 (initial None)) =
    Throw (Error "expired_token") /\
  fst (requestDeviceToken Script.one_denied Script.auth1 (initial None)) =
    Throw (Error "Token request failed: access_denied").
Proof.
  split; [|split; [|split]].
  - destruct (requestDeviceToken Script.one_token Script.auth1 (initial None))
      as [r s'] eqn:Hrun.
    destruct (C2_poll_classification _ _ _ _ _ Hrun) as (_ & _ & _ & Hc).
    destruct (Hc _ eq_refl) as (H200 & _).
    apply (H200 _ eq_refl eq_refl); reflexivity.
  - destruct (requestDeviceToken Script.one_pending Script.auth1 (initial None))
      as [r s'] eqn:Hrun.
    destruct (C2_poll_classification _ _ _ _ _ Hrun) as (_ & _ & _ & Hc).
    destruct (Hc _ eq_refl) as (_ & H400 & _).
    apply (H400 _ eq_refl eq_refl); reflexivity.
  - destruct (requestDeviceToken Script.one_expired Script.auth1 (initial None))
      as [r s'] eqn:Hrun.
    destruct (C2_poll_classification _ _ _ _ _ Hrun) as (_ & _ & _ & Hc).
    destruct (Hc _ eq_refl) as (_ & H400 & _).
    apply (H400 _ eq_refl eq_refl); reflexivity.
  - destruct (requestDeviceToken Script.one_denied Script.auth1 (initial None))
      as [r s'] eqn:Hrun.
    destruct (C2_poll_classification _ _ _ _ _ Hrun) as (_ & _ & _ & Hc).
    destruct (Hc _ eq_refl) as (_ & H400 & _).
    apply (H400 _ eq_refl eq_refl); discriminate.
Defined.

(** The error by which the host recognises that the refresh token itself
    was refused. *)
Definition refresh_unauthorized (e : JsError) : Prop :=
  exists t, e = Error ("Token refresh unauthorized: " ++ t)%string.

(** C8. [refreshAccessToken] performs exactly one exchange.  An answer with
    status 401 or 403 fails with the refresh-unauthorized error; any other
    non-success status, and a success answer without [access_token] or
    [refresh_token], fails with a generic refresh failure, which is never
    the refresh-unauthorized error. *)
Theorem C8_refresh_errors (env : Env) (refreshToken : string) (s : State)
    (r : outcome TokenResponse) (s' : State) :
  refreshAccessToken env refreshToken s = (r, s') ->
  let req := refreshRequest env s refreshToken in
  trace s' = EvFetch req (env_fetch env (trace s) req) :: trace s /\
  method req = "POST"%string /\
  url req = TOKEN_URL /\
  forall response, env_fetch env (trace s) req = inr response ->
    (status response = 401 \/ status response = 403 ->
     r = Throw (Error ("Token refresh unauthorized: "
                         ++ text_or_empty response)%string) /\
     (forall e, r = Throw e -> refresh_unauthorized e)) /\
    (ok response = false -> status response <> 401 -> status response <> 403 ->
     r = Throw (Error ("Token refresh failed: " ++ show (status response)
                         ++ " " ++ text_or_empty response)%string) /\
     (forall e, r = Throw e -> ~ refresh_unauthorized e)) /\
    (forall data, ok response = true -> json response = inr data ->
     truthy_string (j_access_token data) = false \/
     truthy_string (j_refresh_token data) = false ->
     r = Throw (Error "Token refresh response missing required fields") /\
     (forall e, r = Throw e -> ~ refresh_unauthorized e)).
Proof.
  intros Hrun req. rewrite refreshAccessToken_run in Hrun. cbv zeta in Hrun.
  fold req in Hrun. inversion Hrun as [[Hr Hs]]. clear Hrun.
  split; [reflexivity|]. split; [reflexivity|]. split; [reflexivity|].
  intros response Hfetch. rewrite Hfetch. unfold refreshResult.
  split; [|split].
  - intros Hst.
    assert (Hok : ok response = false).
    { unfold ok. destruct Hst as [-> | ->]; reflexivity. }
    assert (Hor : (status response =? 401) || (status response =? 403) = true).
    { destruct Hst as [-> | ->]; reflexivity. }
    rewrite Hok, Hor. cbn [negb]. split; [reflexivity|].
    intros e He. inversion He; subst. eexists. reflexivity.
  - intros Hok Hn1 Hn3. rewrite Hok. cbn [negb].
    destruct (Z.eqb_spec (status response) 401); [contradiction|].
    destruct (Z.eqb_spec (status response) 403); [contradiction|].
    cbn [orb]. split; [reflexivity|].
    intros e He [t Ht]. subst e. inversion He.
  - intros data Hok Hjson Hf. rewrite Hok, Hjson. cbn [negb].
    assert (Hb : negb (truthy_string (j_access_token data))
                 || negb (truthy_string (j_refresh_token data)) = true).
    { destruct Hf as [-> | ->]; rewrite ?orb_true_r; reflexivity. }
    rewrite Hb. split; [reflexivity|].
    intros e He [t Ht]. subst e. inversion He.
Qed.

Lemma C8_refresh_errors_witness :
  fst (refreshAccessToken Script.refresh_401 "rt0" (initial None)) =
  Throw (Error "Token refresh unauthorized: invalid_grant") /\
  Script.fetches (trace (snd (refreshAccessToken Script.refresh_401 "rt0"
                                (initial None)))) = 1%nat.
Proof.
  destruct (refreshAccessToken Script.refresh_401 "rt0" (initial None))
    as [r s'] eqn:Hrun.
  destruct (C8_refresh_errors _ _ _ _ _ Hrun) as (Htrace & _ & _ & Hc).
  destruct (Hc _ eq_refl) as (H401 & _).
  split.
  - apply H401. left. reflexivity.
  - cbn [snd]. rewrite Htrace. reflexivity.
Defined.

(* ================================================================== *)
(** ** Arithmetic on numbers *)

Lemma round53_exact z : Z.abs z < 2 ^ 53 -> round53 z = Num z.
Proof.
  intros H. unfold round53. apply Z.ltb_lt in H. rewrite H. reflexivity.
Qed.

Lemma round53_cases z :
  (exists v, round53 z = Num v) \/ (exists s, round53 z = Infinity s).
Proof.
  unfold round53. destruct (Z.abs z <? 2 ^ 53); [left; eexists; reflexivity|].
  match goal with
  | |- context [if ?b then Infinity _ else _] => destruct b
  end; [right | left]; eexists; reflexivity.
Qed.

(** Rounding never takes a number below a bound that binary64 represents
    exactly. *)
Lemma round53_lower k z :
  - 2 ^ 53 < k <= 2 ^ 53 -> k <= z ->
  round53 z = Infinity false \/ exists v, round53 z = Num v /\ k <= v.
Proof.
  intros Hk Hz. unfold round53.
  destruct (Z.ltb_spec (Z.abs z) (2 ^ 53)) as [Hs | Hb].
  - right. exists z. split; [reflexivity | exact Hz].
  - assert (Hpos : 2 ^ 53 <= z) by lia.
    rewrite (Z.abs_eq z) by lia.
    assert (Hl : 53 <= Z.log2 z) by (apply Z.log2_le_pow2; lia).
    set (e := Z.log2 z - 52).
    assert (He : 1 <= e) by (unfold e; lia).
    assert (Hq : 2 ^ 52 <= z / 2 ^ e).
    { apply Z.div_le_lower_bound; [apply Z.pow_pos_nonneg; lia|].
      rewrite Z.mul_comm, <- Z.pow_add_r by lia.
      replace (52 + e) with (Z.log2 z) by (unfold e; lia).
      apply Z.log2_spec. lia. }
    set (q' := if z mod 2 ^ e <? 2 ^ (e - 1) then z / 2 ^ e
               else if 2 ^ (e - 1) <? z mod 2 ^ e then z / 2 ^ e + 1
               else if Z.even (z / 2 ^ e) then z / 2 ^ e else z / 2 ^ e + 1).
    assert (Hq' : 2 ^ 52 <= q').
    { unfold q'. destruct (_ <? _); [exact Hq|].
      destruct (_ <? _); [lia|]. destruct (Z.even _); lia. }
    assert (Hm : 2 ^ 53 <= q' * 2 ^ e).
    { assert (H2 : 2 ^ 1 <= 2 ^ e) by (apply Z.pow_le_mono_r; lia).
      change (2 ^ 1) with 2 in H2. nia. }
    replace (z <? 0) with false by (symmetry; apply Z.ltb_ge; lia).
    destruct (2 ^ 1024 <=? q' * 2 ^ e); [left; reflexivity|].
    right. eexists. split; [reflexivity|].
    rewrite Z.sgn_pos by lia. lia.
Qed.

(** Where the arithmetic of the program is exact, and where it is not. *)
Example round53_safe : mul 3600 1000 = Num 3600000 /\ add 1015000 3600000 = Num 4615000.
Proof. split; reflexivity. Qed.

Example round53_rounds :
  mul 72057594037929 1000 = Num 72057594037928992 /\
  add 1000001 (mul 9007199254740 1000) = Num 9007199255740000 /\
  round53 (2 ^ 53 + 1) = Num (2 ^ 53) /\
  round53 (2 ^ 53 + 3) = Num (2 ^ 53 + 4) /\
  round53 (2 ^ 1024 - 2 ^ 970) = Infinity false.
Proof. vm_compute. repeat split. Qed.

(** *** Agreement with the Standard Library's binary64

    [round53], [mul] and [add] against [SpecFloat] at precision 53 and
    maximal exponent 1024, on the numbers above and around the places where
    rounding changes: [2^53], a tie, the largest finite number. *)

Module Binary64.

Definition of_Z (z : Z) : SpecFloat.spec_float :=
  SpecFloat.binary_normalize 53 1024 z 0 false.

Definition to_number (f : SpecFloat.spec_float) : number :=
  match f with
  | SpecFloat.S754_zero _ => Num 0
  | SpecFloat.S754_infinity s => Infinity s
  | SpecFloat.S754_nan => NaN
  | SpecFloat.S754_finite s m e =>
      let a := if e <? 0 then Z.pos m / 2 ^ (- e) else Z.pos m * 2 ^ e in
      Num (if s then - a else a)
  end.

Definition times (x y : Z) : number :=
  to_number (SpecFloat.SFmul 53 1024 (of_Z x) (of_Z y)).

Definition plus (x y : Z) : number :=
  to_number (SpecFloat.SFadd 53 1024 (of_Z x) (of_Z y)).

Definition samples : list Z :=
  [ 0; 1; -1; 1000; 3600000; 2 ^ 53 - 1; 2 ^ 53; 2 ^ 53 + 1; 2 ^ 53 + 2;
    2 ^ 53 + 3; - (2 ^ 53 + 1); 2 ^ 54 + 2; 2 ^ 54 + 6; 2 ^ 60 + 127;
    2 ^ 60 + 128; 2 ^ 60 + 129; 9007199255740001; 72057594037929000;
    - 72057594037929000; 2 ^ 1023; 2 ^ 1024 - 2 ^ 971;
    2 ^ 1024 - 2 ^ 970 - 1; 2 ^ 1024 - 2 ^ 970; - (2 ^ 1024); 2 ^ 1030 ].

End Binary64.

Example round53_agrees :
  map round53 Binary64.samples =
  map (fun z => Binary64.to_number (Binary64.of_Z z)) Binary64.samples.
Proof. vm_compute. reflexivity. Qed.

Example mul_agrees :
  mul 72057594037929 1000 = Binary64.times 72057594037929 1000 /\
  mul 9007199254740 1000 = Binary64.times 9007199254740 1000 /\
  mul (-7) 1000 = Binary64.times (-7) 1000 /\
  mul (2 ^ 53 - 1) 1000 = Binary64.times (2 ^ 53 - 1) 1000 /\
  mul (2 ^ 1020) 1000 = Binary64.times (2 ^ 1020) 1000.
Proof. vm_compute. repeat split. Qed.

Example add_agrees :
  add 1000001 9007199254740000 = Binary64.plus 1000001 9007199254740000 /\
  add 1015000 3600000 = Binary64.plus 1015000 3600000 /\
  add (2 ^ 53) 1 = Binary64.plus (2 ^ 53) 1 /\
  add (2 ^ 53) 3 = Binary64.plus (2 ^ 53) 3 /\
  add (- 2 ^ 60) 1000 = Binary64.plus (- 2 ^ 60) 1000 /\
  add (2 ^ 1023) (2 ^ 1023) = Binary64.plus (2 ^ 1023) (2 ^ 1023).
Proof. vm_compute. repeat split. Qed.

(** [t + n * 1000], as the program computes the expiry of credentials. *)
Lemma expiry_exact now n :
  Z.abs (n * 1000) < 2 ^ 53 -> Z.abs (now + n * 1000) < 2 ^ 53 ->
  add now (mul n 1000) = Num (now + n * 1000).
Proof.
  intros Hp Hs. cbn [mul add]. rewrite (round53_exact _ Hp). cbn [add].
  apply round53_exact. exact Hs.
Qed.

Lemma deadline_exact t0 auth :
  Z.abs (expires_in auth * 1000) < 2 ^ 53 ->
  Z.abs (t0 + expires_in auth * 1000) < 2 ^ 53 ->
  deadline t0 auth = Num (t0 + expires_in auth * 1000).
Proof. intros Hp Hs. unfold deadline. apply expiry_exact; assumption. Qed.

Lemma expiry_cases now n :
  Z.abs now < 2 ^ 53 -> 0 <= n ->
  (lt now (add now (mul n 1000)) = true <-> 0 < n) /\
  (n = 0 -> add now (mul n 1000) = Num now) /\
  lt (add now (mul n 1000)) now = false /\
  add now (mul n 1000) <> NaN.
Proof.
  intros Hnow Hn. destruct (Z.eq_dec n 0) as [-> | Hpos].
  - assert (He : add now (mul 0 1000) = Num now).
    { rewrite expiry_exact; [f_equal; lia | simpl; lia | lia]. }
    rewrite He. cbn [lt]. rewrite Z.ltb_irrefl.
    split; [split; [discriminate | lia]|].
    split; [reflexivity|]. split; [reflexivity | discriminate].
  - assert (H0 : 0 < n) by lia.
    assert (Hgoal : lt now (add now (mul n 1000)) = true /\
                    lt (add now (mul n 1000)) now = false /\
                    add now (mul n 1000) <> NaN).
    { cbn [mul].
      destruct (round53_lower 1000 (n * 1000)) as [-> | (v & -> & Hv)];
        [lia | lia | cbn [add lt]; repeat split; discriminate |].
      cbn [add].
      destruct (round53_lower (now + 1) (now + v)) as [-> | (w & -> & Hw)];
        [lia | lia | cbn [lt]; repeat split; discriminate |].
      cbn [lt]. split; [apply Z.ltb_lt; lia|].
      split; [apply Z.ltb_ge; lia | discriminate]. }
    destruct Hgoal as (Hlt & Hge & Hnan).
    split; [split; [intros _; exact H0 | intros _; exact Hlt]|].
    split; [intros ->; lia|]. split; assumption.
Qed.

(* ================================================================== *)
(** ** Credentials *)







(* ================================================================== *)
(** ** The polling loop: cancellation, waiting, restarting *)

Lemma pending_answer response data :
  status response = 400 ->
  json response = inr data ->
  j_error data = Some "authorization_pending"%string ->
  tokenResult (inr response) = Ok None.
Proof.
  intros Hst Hjson He. unfold tokenResult. rewrite Hst, Hjson, He. reflexivity.
Qed.

Lemma expired_answer response data :
  status response = 400 ->
  json response = inr data ->
  j_error data = Some "expired_token"%string ->
  is_expired (inr response) = true.
Proof.
  intros Hst Hjson He. unfold is_expired, tokenResult.
  rewrite Hst, Hjson, He. reflexivity.
Qed.

(** C1, as the specification words it, fails.  The abort signal is set
    while the program sleeps between the first and the second poll; the
    second poll is sent all the same, and as it brings a token the login
    returns credentials instead of failing. *)
Lemma C1_counterexample :
  let run := loginKimiCode Script.cancel_during_sleep 3 Script.callbacks
               (initial None) in
  exists post req res l,
    trace (snd run) = post ++ EvFetch req res :: l /\
    has_signal Script.callbacks = true /\
    (exists req0 res0 older, l = EvDateNow 1005000 :: EvSetTimeout 5000
                                   :: EvSignalAborted false
                                   :: EvOnProgress "Waiting for authorization..."
                                   :: EvFetch req0 res0 :: older /\
                             is_token_request req0 = true) /\
    env_aborted Script.cancel_during_sleep l = true /\
    is_token_request req = true /\
    fst run = Ok {| access := "at1"; refresh := "rt1"; expires := Num 4605000 |}.
Proof.
  cbv zeta. eexists [_], _, _, _.
  split; [vm_compute; reflexivity|].
  split; [reflexivity|].
  split; [eexists _, _, _; split; reflexivity|].
  split; [reflexivity|]. split; reflexivity.
Qed.

(** C1, amended.  The abort signal is read only right after a poll that
    was answered "pending" (after the progress notice, if any), never before
    a poll; when a host signal exists every sleep is directly preceded by
    such a reading that found it clear.  A reading that finds the signal set
    is the last thing the login does: it fails with the authorization-aborted
    error and no further request is sent. *)
Theorem C1_abort_checked_after_pending (env : Env) (fuel : nat)
    (callbacks : OAuthLoginCallbacks) (id : option string)
    (r : outcome OAuthCredentials) (s' : State) :
  loginKimiCode env fuel callbacks (initial id) = (r, s') ->
  (forall post b l,
     trace s' = post ++ EvSignalAborted b :: l ->
     after_pending l /\
     (b = true -> post = [] /\ r = Throw abort_error)) /\
  (has_signal callbacks = true ->
   forall post ms l,
     trace s' = post ++ EvSetTimeout ms :: l ->
     exists l', l = EvSignalAborted false :: l').
Proof.
  intros Hrun. apply login_events in Hrun. destruct Hrun as [Hwf [Hab _]].
  split.
  - intros post b l Heq.
    destruct (Hwf _ _ _ Heq) as [_ [_ Hap]]. split; [exact Hap|].
    intros ->.
    assert (Hpost : post = []).
    { destruct post as [|x post] using rev_ind; [reflexivity|].
      rewrite <- app_assoc in Heq. simpl in Heq.
      destruct (Hwf _ _ _ Heq) as [Hna _]. contradiction Hna. }
    split; [exact Hpost|]. subst post. simpl in Heq.
    destruct Hab as [Hna | Hr]; [|exact Hr].
    rewrite Heq in Hna. contradiction Hna.
  - intros Hsig post ms l Heq.
    destruct (Hwf _ _ _ Heq) as [_ [_ Hto]]. rewrite Hsig in Hto.
    destruct l as [|[| | | |[]|] l']; try contradiction.
    exists l'. reflexivity.
Qed.

Lemma C1_abort_checked_after_pending_witness :
  exists s',
    loginKimiCode Script.cancel_at_once 3 Script.callbacks (initial None) =
      (Throw abort_error, s') /\
    exists l, trace s' = EvSignalAborted true :: l /\ after_pending l.
Proof.
  eassert (Hrun : loginKimiCode Script.cancel_at_once 3 Script.callbacks
                    (initial None) = (_, _)) by (vm_compute; reflexivity).
  destruct (C1_abort_checked_after_pending _ _ _ _ _ _ Hrun) as [Hcheck _].
  cbn [trace] in Hcheck.
  destruct (Hcheck [] true _ eq_refl) as [Hap Hlast].
  destruct (Hlast eq_refl) as [_ Hr].
  eexists. split; [rewrite Hrun, Hr; reflexivity|].
  eexists. split; [reflexivity | exact Hap].
Defined.

Lemma interval_exact auth :
  Z.max (interval auth) 1 * 1000 < 2 ^ 53 ->
  interval_ms auth = Num (Z.max (interval auth) 1 * 1000).
Proof.
  intros H. unfold interval_ms. cbn [mul]. apply round53_exact. lia.
Qed.




(** *** Restarting *)

Section AlwaysExpired.

Variable env : Env.

(** Every device-authorization request is granted, every poll finds the
    device code expired. *)
Hypothesis granted :
  forall l req, is_device_request req = true ->
    exists auth, deviceAuthorizationResult (env_fetch env l req) = Ok auth.
Hypothesis expiring :
  forall l req, is_token_request req = true ->
    is_expired (env_fetch env l req) = true.

Lemma poll_loop_expiring fuel callbacks auth iv expiresAt printedWaiting s :
  exists s',
    poll_loop env fuel callbacks auth iv expiresAt printedWaiting s =
      (match fuel with O => OutOfFuel | S _ => Ok None end, s') /\
    device_requests (trace s') = device_requests (trace s).
Proof.
  destruct fuel as [|fuel]; [eexists; split; reflexivity|].
  rewrite poll_loop_S. cbv zeta.
  destruct (lt (env_now env (trace s)) expiresAt);
    [|eexists; split; reflexivity].
  set (s1 := log (EvDateNow (env_now env (trace s))) s).
  pose proof (expiring (trace s1) (tokenRequest env s1 auth) eq_refl) as Hx.
  unfold is_expired in Hx.
  destruct (tokenResult _) as [t|e|]; try discriminate.
  rewrite Hx. eexists. split; [reflexivity|].
  unfold notify. destruct (has_onProgress callbacks); reflexivity.
Qed.

Lemma login_restarts fuel callbacks :
  forall s, exists s',
    loginKimiCode env fuel callbacks s = (OutOfFuel, s') /\
    device_requests (trace s') = (device_requests (trace s) + fuel)%nat.
Proof.
  induction fuel as [|fuel IH]; intros s.
  - exists s. split; [reflexivity|]. rewrite Nat.add_0_r. reflexivity.
  - rewrite loginKimiCode_S. cbv zeta.
    destruct (granted (trace s) (deviceAuthorizationRequest env s) eq_refl)
      as [auth ->].
    match goal with
    | |- context [poll_loop env fuel callbacks auth ?iv ?ex false ?s3] =>
        destruct (poll_loop_expiring fuel callbacks auth iv ex false s3)
          as (s4 & -> & Hn)
    end.
    cbn [trace log after_fetch device_requests] in Hn.
    change (is_device_request (deviceAuthorizationRequest env s)) with true in Hn.
    cbv iota in Hn.
    destruct fuel as [|fuel].
    + exists s4. split; [reflexivity|]. rewrite Hn. lia.
    + destruct (IH s4) as (s5 & -> & Hn5). exists s5.
      split; [reflexivity|]. rewrite Hn5, Hn. lia.
Qed.

End AlwaysExpired.

Section ExpireN.

Variable n : nat.

Lemma expire_n_grants l s :
  deviceAuthorizationResult
    (env_fetch (Script.expire_n n) l
       (deviceAuthorizationRequest (Script.expire_n n) s)) = Ok Script.auth1.
Proof. reflexivity. Qed.

Lemma expire_n_poll l s auth :
  tokenResult
    (env_fetch (Script.expire_n n) l (tokenRequest (Script.expire_n n) s auth)) =
  if (Script.polls l <? n)%nat then Throw (Error "expired_token")
  else Ok (Some (mkTokenResponse "at1" "rt1" (Some 3600) None None)).
Proof.
  cbn [env_fetch Script.expire_n tokenRequest url].
  change (TOKEN_URL =? DEVICE_AUTHORIZATION_URL)%string with false. cbv iota.
  destruct (Script.polls l <? n)%nat; reflexivity.
Qed.

(** With [k] expiries still to come, the login restarts [k] times and then
    returns the token. *)
Lemma expire_n_login callbacks :
  forall k s,
    (Script.polls (trace s) + k)%nat = n ->
    exists s',
      loginKimiCode (Script.expire_n n) (S (S k)) callbacks s =
        (Ok {| access := "at1"; refresh := "rt1"; expires := Num 3600000 |}, s') /\
      device_requests (trace s') = (device_requests (trace s) + S k)%nat.
Proof.
  induction k as [|k IH]; intros s Hk.
  - rewrite loginKimiCode_S. cbv zeta. rewrite expire_n_grants.
    rewrite poll_loop_S. cbv zeta.
    change (lt _ (deadline _ Script.auth1)) with true. cbv iota.
    rewrite expire_n_poll. cbn [log trace after_fetch Script.polls].
    change (url (deviceAuthorizationRequest (Script.expire_n n) s) =? TOKEN_URL)%string
      with false. cbv iota.
    replace (Script.polls (trace s)) with n by lia.
    rewrite Nat.ltb_irrefl.
    eexists. split; [reflexivity|].
    cbn [log trace after_fetch device_requests].
    change (is_device_request (tokenRequest (Script.expire_n n) _ _)) with false.
    change (is_device_request (deviceAuthorizationRequest (Script.expire_n n) s))
      with true.
    cbv iota. lia.
  - rewrite loginKimiCode_S. cbv zeta. rewrite expire_n_grants.
    rewrite poll_loop_S. cbv zeta.
    change (lt _ (deadline _ Script.auth1)) with true. cbv iota.
    rewrite expire_n_poll. cbn [log trace after_fetch Script.polls].
    change (url (deviceAuthorizationRequest (Script.expire_n n) s) =? TOKEN_URL)%string
      with false. cbv iota.
    assert (Hlt : (Script.polls (trace s) <? n)%nat = true)
      by (apply Nat.ltb_lt; lia).
    rewrite Hlt.
    change (message (Error "expired_token") =? "expired_token")%string with true.
    cbv iota.
    match goal with
    | |- context [loginKimiCode _ (S (S k)) callbacks ?s4] =>
        destruct (IH s4) as (s5 & Hrun & Hn)
    end.
    + unfold notify. destruct (has_onProgress callbacks);
        cbn [log trace after_fetch Script.polls];
        change (url (tokenRequest (Script.expire_n n) _ _) =? TOKEN_URL)%string
          with true;
        change (url (deviceAuthorizationRequest (Script.expire_n n) s) =? TOKEN_URL)%string
          with false;
        cbv iota; lia.
    + exists s5. split; [exact Hrun|]. rewrite Hn.
      unfold notify. destruct (has_onProgress callbacks);
        cbn [log trace after_fetch device_requests];
        change (is_device_request (tokenRequest (Script.expire_n n) _ _)) with false;
        change (is_device_request (deviceAuthorizationRequest (Script.expire_n n) s))
          with true;
        cbv iota; lia.
Qed.

End ExpireN.



(* ================================================================== *)
(** ** The end-to-end scenarios *)

(** Three pending polls, then the token: four polls and three sleeps of
    five seconds. *)
Example scenario1_run :
  let run := loginKimiCode Script.scenario1 5 Script.callbacks (initial None) in
  fst run = Ok {| access := "at1"; refresh := "rt1";
                  expires := Num (1015000 + 3600000) |} /\
  Script.polls (trace (snd run)) = 4%nat /\
  filter Script.is_timeout (trace (snd run)) =
    [EvSetTimeout 5000; EvSetTimeout 5000; EvSetTimeout 5000].
Proof. vm_compute. repeat split. Qed.

(** The first device code expires on the second poll: a second device
    authorization is requested and the login succeeds with the second code. *)
Example scenario2_run :
  let run := loginKimiCode Script.scenario2 5 Script.callbacks (initial None) in
  fst run = Ok {| access := "at2"; refresh := "rt2";
                  expires := Num (1005000 + 3600000) |} /\
  device_requests (trace (snd run)) = 2%nat /\
  Script.polls (trace (snd run)) = 3%nat.
Proof. vm_compute. repeat split. Qed.

(** The user denies the request: the login fails at once with the server's
    description and polls no more. *)
Example scenario3_run :
  let run := loginKimiCode Script.scenario3 5 Script.callbacks (initial None) in
  fst run = Throw (Error "Token request failed: access_denied") /\
  Script.polls (trace (snd run)) = 1%nat.
Proof. vm_compute. repeat split. Qed.

(* ================================================================== *)
(** * Further properties of the client *)

(** More scripted worlds. *)
Module Cases.

(** The device-authorization endpoint is down. *)
Definition unavailable : Env :=
  Script.world [ inr (mkResponse 503 (inl (SyntaxError "Unexpected token")) (Some "Service Unavailable")) ]
               0 None.

(** The network is down: [fetch] rejects. *)
Definition offline : Env :=
  Script.world [ inl (TypeError "fetch failed") ] 0 None.

(** A refresh answered 201 with a complete token that has no lifetime. *)
Definition refresh_created : Env :=
  Script.world [ Script.json_response 201 (Script.token_json "at9" "rt9" None) ] 7000 None.

(** A poll refused with an empty description. *)
Definition denied_empty_description : Env :=
  Script.world
    [ Script.json_response 400
        (mkJson None None None None None None None None None None
                (Some "access_denied") (Some "")) ]
    0 None.

(** A login whose token answer has no [expires_in]. *)
Definition no_expiry : Env :=
  Script.world
    [ Script.json_response 200 (Script.device_json "ABCD-1234" "dc1" (Some 1800) (Some 5));
      Script.json_response 200 (Script.token_json "at1" "rt1" None) ]
    1000000 None.

(** A device code that lives three seconds while the poll interval is
    five: the deadline passes during the first sleep. *)
Definition deadline_passes : Env :=
  Script.world
    [ Script.json_response 200 (Script.device_json "ABCD-1234" "dc1" (Some 3) (Some 5));
      Script.pending;
      Script.json_response 200 (Script.device_json "EFGH-5678" "dc2" (Some 1800) (Some 5));
      Script.json_response 200 (Script.token_json "at2" "rt2" (Some 3600)) ]
    1000000 None.

(** A server that asks for a poll interval of minus two seconds. *)
Definition negative_interval : Env :=
  Script.world
    [ Script.json_response 200 (Script.device_json "ABCD-1234" "dc1" (Some 1800) (Some (-2)));
      Script.pending;
      Script.json_response 200 (Script.token_json "at1" "rt1" (Some 3600)) ]
    1000000 None.

(** A login that succeeds on its first poll, then a refresh. *)
Definition login_then_refresh : Env :=
  Script.world
    [ Script.json_response 200 (Script.device_json "ABCD-1234" "dc1" (Some 1800) (Some 5));
      Script.json_response 200 (Script.token_json "at1" "rt1" (Some 3600));
      Script.json_response 200 (Script.token_json "at2" "rt2" (Some 3600)) ]
    1000000 None.

(** A host that gives no abort signal. *)
Definition no_signal : OAuthLoginCallbacks := mkCallbacks true false.

(** Credentials that are due for a refresh. *)
Definition old_credentials : OAuthCredentials :=
  {| access := "at0"; refresh := "rt0"; expires := Num 1 |}.

End Cases.

(* ================================================================== *)
(** ** Device identification *)

(** X1. Once a non-empty device id is stored, [getStableDeviceId] returns it
    and changes nothing, whatever happened in between and whatever the random
    source would give; and the id a first call generates is the one every
    later call returns. *)
Theorem X1_device_id_is_stable (env : Env) :
  (forall id tr, id <> ""%string ->
     getStableDeviceId env (mkState (Some id) tr) = (Ok id, mkState (Some id) tr)) /\
  (forall s id s1 tr,
     getStableDeviceId env s = (Ok id, s1) ->
     id <> ""%string ->
     getStableDeviceId env (mkState (DEVICE_ID s1) tr) =
       (Ok id, mkState (DEVICE_ID s1) tr)).
Proof.
  assert (Hstored : forall id tr, id <> ""%string ->
            getStableDeviceId env (mkState (Some id) tr)
            = (Ok id, mkState (Some id) tr)).
  { intros id tr Hid. unfold getStableDeviceId. cbn [DEVICE_ID truthy_string or_string].
    destruct (String.eqb_spec id ""); [contradiction | reflexivity]. }
  split; [exact Hstored|].
  intros s id s1 tr Hrun Hid.
  assert (Hs1 : DEVICE_ID s1 = Some id).
  { unfold getStableDeviceId, createDeviceId in Hrun.
    destruct s as [[d|] tr0]; cbn [DEVICE_ID truthy_string or_string trace] in Hrun.
    - destruct (String.eqb_spec d ""); cbn [negb] in Hrun;
        inversion Hrun; subst; reflexivity.
    - inversion Hrun; subst; reflexivity. }
  rewrite Hs1. apply Hstored. exact Hid.
Qed.

Lemma X1_device_id_is_stable_witness :
  exists id s1,
    getStableDeviceId Script.scenario1 (initial None) = (Ok id, s1) /\
    getStableDeviceId Script.scenario1
      (mkState (DEVICE_ID s1) [EvDateNow 5; EvSetTimeout 5000]) =
    (Ok id, mkState (DEVICE_ID s1) [EvDateNow 5; EvSetTimeout 5000]).
Proof.
  eexists _, _. split; [reflexivity|].
  apply (proj2 (X1_device_id_is_stable Script.scenario1) (initial None)
           "000102030405060708090a0b0c0d0e0f"%string _ _ eq_refl).
  discriminate.
Defined.

(* ================================================================== *)
(** ** Device authorization: failures and the value returned *)

(** X2. [requestDeviceAuthorization] sends exactly one POST to the
    device-authorization endpoint with [client_id] as its only parameter.
    A rejected [fetch] is thrown on as it is; an answer with a non-success
    status fails with ["Device authorization failed: <status> <text>"], the
    text being empty when the body cannot be read; a success answer whose
    body is not JSON fails with the parser's error. *)
Theorem X2_device_authorization_failures (env : Env) (s : State)
    (r : outcome DeviceAuthorization) (s' : State) :
  requestDeviceAuthorization env s = (r, s') ->
  let req := deviceAuthorizationRequest env s in
  trace s' = EvFetch req (env_fetch env (trace s) req) :: trace s /\
  method req = "POST"%string /\
  url req = DEVICE_AUTHORIZATION_URL /\
  body req = [("client_id", CLIENT_ID)] /\
  (forall e, env_fetch env (trace s) req = inl e -> r = Throw e) /\
  (forall response, env_fetch env (trace s) req = inr response ->
     (ok response = false ->
      r = Throw (Error ("Device authorization failed: " ++ show (status response)
                          ++ " " ++ text_or_empty response)%string)) /\
     (ok response = false -> text response = None ->
      r = Throw (Error ("Device authorization failed: " ++ show (status response)
                          ++ " ")%string)) /\
     (forall e, ok response = true -> json response = inl e -> r = Throw e)).
Proof.
  intros Hrun req. rewrite requestDeviceAuthorization_run in Hrun.
  cbv zeta in Hrun. fold req in Hrun. inversion Hrun as [[Hr Hs]]. clear Hrun.
  split; [reflexivity|]. split; [reflexivity|]. split; [reflexivity|].
  split; [reflexivity|]. split.
  - intros e He. rewrite He. reflexivity.
  - intros response Hf. rewrite Hf. unfold deviceAuthorizationResult.
    split; [|split].
    + intros Hok. rewrite Hok. reflexivity.
    + intros Hok Ht. rewrite Hok. unfold text_or_empty. rewrite Ht. reflexivity.
    + intros e Hok Hj. rewrite Hok, Hj. reflexivity.
Qed.

Lemma X2_device_authorization_failures_witness :
  fst (requestDeviceAuthorization Cases.unavailable (initial None)) =
    Throw (Error "Device authorization failed: 503 Service Unavailable") /\
  fst (requestDeviceAuthorization Cases.offline (initial None)) =
    Throw (TypeError "fetch failed").
Proof.
  split.
  - destruct (requestDeviceAuthorization Cases.unavailable (initial None))
      as [r s'] eqn:Hrun.
    destruct (X2_device_authorization_failures _ _ _ _ Hrun)
      as (_ & _ & _ & _ & _ & Hresp).
    destruct (Hresp _ eq_refl) as (Hfail & _).
    apply Hfail. reflexivity.
  - destruct (requestDeviceAuthorization Cases.offline (initial None))
      as [r s'] eqn:Hrun.
    destruct (X2_device_authorization_failures _ _ _ _ Hrun)
      as (_ & _ & _ & _ & Hrej & _).
    apply Hrej. reflexivity.
Defined.

Lemma truthy_string_some v :
  truthy_string v = true ->
  exists x, v = Some x /\ x <> ""%string /\ or_string v "" = x.
Proof.
  destruct v as [x|]; [|discriminate]. simpl.
  destruct (String.eqb_spec x ""); [discriminate|].
  intros _. exists x. repeat split. assumption.
Qed.

Lemma or_number_nonzero v d : d <> 0 -> or_number v d <> 0.
Proof.
  intros Hd. unfold or_number. destruct v as [z|]; [|exact Hd].
  destruct (Z.eqb_spec z 0); assumption.
Qed.

(** X3. A [DeviceAuthorization] that [requestDeviceAuthorization] returns
    comes from a success answer and repeats its [user_code], [device_code]
    and [verification_uri_complete], none of which is empty;
    [verification_uri] is the empty string when the answer has none; and
    neither the lifetime nor the poll interval is 0. *)
Theorem X3_device_authorization_value (env : Env) (s : State)
    (auth : DeviceAuthorization) (s' : State) :
  requestDeviceAuthorization env s = (Ok auth, s') ->
  exists response data,
    env_fetch env (trace s) (deviceAuthorizationRequest env s) = inr response /\
    ok response = true /\
    json response = inr data /\
    j_user_code data = Some (user_code auth) /\
    j_device_code data = Some (device_code auth) /\
    j_verification_uri_complete data = Some (verification_uri_complete auth) /\
    user_code auth <> ""%string /\
    device_code auth <> ""%string /\
    verification_uri_complete auth <> ""%string /\
    (j_verification_uri data = None -> verification_uri auth = ""%string) /\
    expires_in auth <> 0 /\
    interval auth <> 0.
Proof.
  intros Hrun. rewrite requestDeviceAuthorization_run in Hrun. cbv zeta in Hrun.
  inversion Hrun as [[Hr Hs]]. clear Hrun Hs.
  unfold deviceAuthorizationResult in Hr.
  destruct (env_fetch env (trace s) _) as [e|response]; [discriminate|].
  destruct (ok response) eqn:Hok; cbn [negb] in Hr; [|discriminate].
  destruct (json response) as [e|data] eqn:Hjson; [discriminate|].
  destruct (truthy_string (j_user_code data)) eqn:Hu; cbn [negb orb] in Hr;
    [|discriminate].
  destruct (truthy_string (j_device_code data)) eqn:Hd; cbn [negb orb] in Hr;
    [|discriminate].
  destruct (truthy_string (j_verification_uri_complete data)) eqn:Hv;
    cbn [negb orb] in Hr; [|discriminate].
  inversion Hr as [Hauth]. clear Hr.
  destruct (truthy_string_some _ Hu) as (u & Hu1 & Hu2 & Hu3).
  destruct (truthy_string_some _ Hd) as (d & Hd1 & Hd2 & Hd3).
  destruct (truthy_string_some _ Hv) as (v & Hv1 & Hv2 & Hv3).
  subst auth. cbn [user_code device_code verification_uri
    verification_uri_complete expires_in interval].
  rewrite Hu3, Hd3, Hv3.
  exists response, data.
  split; [reflexivity|]. split; [exact Hok|]. split; [exact Hjson|].
  split; [exact Hu1|]. split; [exact Hd1|]. split; [exact Hv1|].
  split; [exact Hu2|]. split; [exact Hd2|]. split; [exact Hv2|].
  split; [intros ->; reflexivity|].
  split; apply or_number_nonzero; discriminate.
Qed.

Lemma X3_device_authorization_value_witness :
  exists auth,
    fst (requestDeviceAuthorization Script.zero_lifetime (initial None)) = Ok auth /\
    user_code auth <> ""%string /\ expires_in auth <> 0 /\ interval auth <> 0.
Proof.
  eassert (Hrun : requestDeviceAuthorization Script.zero_lifetime (initial None)
                  = (Ok _, _)) by (vm_compute; reflexivity).
  destruct (X3_device_authorization_value _ _ _ _ Hrun)
    as (response & data & _ & _ & _ & _ & _ & _ & Hu & _ & _ & _ & He & Hi).
  eexists. split; [rewrite Hrun; reflexivity|].
  split; [exact Hu|]. split; [exact He | exact Hi].
Defined.

(* ================================================================== *)
(** ** One poll: refusals and rejections *)

(** X4. The message of a refused poll (status 400, an error code other than
    [authorization_pending] and [expired_token]) is
    ["Token request failed: "] followed by the error description if there is
    a non-empty one, else by the error code if there is a non-empty one,
    else by ["unknown"]. *)
Theorem X4_refusal_message (env : Env) (auth : DeviceAuthorization) (s : State)
    (response : Response) (data : Json) :
  env_fetch env (trace s) (tokenRequest env s auth) = inr response ->
  status response = 400 ->
  json response = inr data ->
  j_error data <> Some "authorization_pending"%string ->
  j_error data <> Some "expired_token"%string ->
  (forall d, j_error_description data = Some d -> d <> ""%string ->
     fst (requestDeviceToken env auth s) =
     Throw (Error ("Token request failed: " ++ d)%string)) /\
  (forall c, absent_or_empty (j_error_description data) ->
     j_error data = Some c -> c <> ""%string ->
     fst (requestDeviceToken env auth s) =
     Throw (Error ("Token request failed: " ++ c)%string)) /\
  (absent_or_empty (j_error_description data) ->
   absent_or_empty (j_error data) ->
   fst (requestDeviceToken env auth s) =
   Throw (Error "Token request failed: unknown")).
Proof.
  intros Hf Hst Hj Hn1 Hn2.
  rewrite requestDeviceToken_run. cbv zeta. cbn [fst]. rewrite Hf.
  unfold tokenResult. rewrite Hst, Hj.
  change (400 =? 200) with false. change (400 =? 400) with true. cbv iota.
  rewrite (strict_eq_false _ _ Hn1), (strict_eq_false _ _ Hn2).
  split; [|split].
  - intros d -> Hd. cbn [or_string].
    destruct (String.eqb_spec d ""); [contradiction | reflexivity].
  - intros c Hd -> Hc.
    assert (Hor : forall x, or_string (j_error_description data) x = x)
      by (intros x; destruct Hd as [-> | ->]; reflexivity).
    rewrite Hor. cbn [or_string].
    destruct (String.eqb_spec c ""); [contradiction | reflexivity].
  - intros Hd He.
    assert (Hor : forall x, or_string (j_error_description data) x = x)
      by (intros x; destruct Hd as [-> | ->]; reflexivity).
    rewrite Hor. destruct He as [-> | ->]; reflexivity.
Qed.

Lemma X4_refusal_message_witness :
  fst (requestDeviceToken Cases.denied_empty_description Script.auth1 (initial None)) =
  Throw (Error "Token request failed: access_denied").
Proof.
  refine (proj1 (proj2 (X4_refusal_message Cases.denied_empty_description
                          Script.auth1 (initial None) _ _ eq_refl eq_refl eq_refl
                          _ _))
            "access_denied"%string _ eq_refl _).
  - discriminate.
  - discriminate.
  - right. reflexivity.
  - discriminate.
Defined.

(** X5. [requestDeviceToken] throws on, unchanged, the error of a rejected
    [fetch] and, for status 200 and 400, the error of a body that is not
    JSON.  For every other status the body is not parsed: the outcome is the
    same whatever the body would have parsed to, a complete token included. *)
Theorem X5_poll_rejections (env : Env) (auth : DeviceAuthorization) (s : State) :
  let res := env_fetch env (trace s) (tokenRequest env s auth) in
  (forall e, res = inl e -> fst (requestDeviceToken env auth s) = Throw e) /\
  (forall response e, res = inr response ->
     status response = 200 \/ status response = 400 ->
     json response = inl e ->
     fst (requestDeviceToken env auth s) = Throw e) /\
  (forall response, res = inr response ->
     status response <> 200 -> status response <> 400 ->
     forall body',
       tokenResult (inr (mkResponse (status response) body' (text response))) =
       fst (requestDeviceToken env auth s)).
Proof.
  intros res. subst res.
  rewrite requestDeviceToken_run. cbv zeta. cbn [fst].
  split; [|split].
  - intros e ->. reflexivity.
  - intros response e -> Hst Hj. unfold tokenResult.
    destruct Hst as [-> | ->]; rewrite Hj; reflexivity.
  - intros response -> H2 H4 body'. unfold tokenResult, text_or_empty.
    cbn [status json text].
    destruct (Z.eqb_spec (status response) 200); [contradiction|].
    destruct (Z.eqb_spec (status response) 400); [contradiction|].
    reflexivity.
Qed.

Lemma X5_poll_rejections_witness :
  fst (requestDeviceToken Cases.offline Script.auth1 (initial None)) =
  Throw (TypeError "fetch failed").
Proof.
  apply (proj1 (X5_poll_rejections Cases.offline Script.auth1 (initial None))).
  reflexivity.
Defined.

(* ================================================================== *)
(** ** Refresh *)

(** X6. [refreshAccessToken] accepts every success status, not only 200:
    an answer with a status from 200 to 299 whose [access_token] and
    [refresh_token] are non-empty returns them, with [expires_in], [scope]
    and [token_type] passed on unchecked. *)
Theorem X6_refresh_success (env : Env) (refreshToken : string) (s : State)
    (response : Response) (data : Json) (a r : string) :
  env_fetch env (trace s) (refreshRequest env s refreshToken) = inr response ->
  200 <= status response <= 299 ->
  json response = inr data ->
  j_access_token data = Some a -> a <> ""%string ->
  j_refresh_token data = Some r -> r <> ""%string ->
  fst (refreshAccessToken env refreshToken s) =
  Ok {| access_token := a;
        refresh_token := r;
        token_expires_in := j_expires_in data;
        scope := j_scope data;
        token_type := j_token_type data |}.
Proof.
  intros Hf Hst Hj Ha Hane Hr Hrne.
  rewrite refreshAccessToken_run. cbv zeta. cbn [fst]. rewrite Hf.
  unfold refreshResult, ok.
  replace (200 <=? status response) with true by (symmetry; apply Z.leb_le; lia).
  replace (status response <=? 299) with true by (symmetry; apply Z.leb_le; lia).
  cbn [andb negb]. rewrite Hj. unfold as_TokenResponse. rewrite Ha, Hr.
  cbn [truthy_string or_string].
  destruct (String.eqb_spec a ""); [contradiction|].
  destruct (String.eqb_spec r ""); [contradiction|].
  reflexivity.
Qed.

Lemma X6_refresh_success_witness :
  fst (refreshAccessToken Cases.refresh_created "rt0" (initial None)) =
  Ok {| access_token := "at9"; refresh_token := "rt9";
        token_expires_in := None; scope := None; token_type := None |}.
Proof.
  apply (X6_refresh_success Cases.refresh_created "rt0" (initial None)
           (mkResponse 201 (inr (Script.token_json "at9" "rt9" None)) None)
           (Script.token_json "at9" "rt9" None) "at9" "rt9");
    try reflexivity; try discriminate.
  cbn [status]. lia.
Defined.

(** X7. [refreshKimiCodeToken] uses nothing of the old credentials but
    their [refresh] token, which it sends with grant type [refresh_token].
    When the exchange fails it throws the error of [refreshAccessToken]
    without reading the clock; when it succeeds it reads the clock once,
    after the exchange. *)
Theorem X7_refresh_token_flow (env : Env) (credentials : OAuthCredentials)
    (s : State) (r : outcome OAuthCredentials) (s' : State) :
  refreshKimiCodeToken env credentials s = (r, s') ->
  let req := refreshRequest env s (refresh credentials) in
  let res := env_fetch env (trace s) req in
  body req = [("client_id", CLIENT_ID);
              ("grant_type", "refresh_token"%string);
              ("refresh_token", refresh credentials)] /\
  (forall other, refresh other = refresh credentials ->
     refreshKimiCodeToken env other s = (r, s')) /\
  (forall e, refreshResult res = Throw e ->
     r = Throw e /\ trace s' = EvFetch req res :: trace s) /\
  (forall token, refreshResult res = Ok token ->
     exists now, r = Ok (credentials_at now token) /\
                 trace s' = EvDateNow now :: EvFetch req res :: trace s).
Proof.
  intros Hrun req res. split; [reflexivity|]. split.
  - intros other Ho. rewrite <- Hrun.
    rewrite !refreshKimiCodeToken_run. rewrite Ho. reflexivity.
  - rewrite refreshKimiCodeToken_run in Hrun. cbv zeta in Hrun.
    fold req in Hrun. fold res in Hrun. split.
    + intros e He. rewrite He in Hrun. inversion Hrun; subst.
      split; reflexivity.
    + intros token Ht. rewrite Ht in Hrun. inversion Hrun; subst.
      eexists. split; reflexivity.
Qed.

Lemma X7_refresh_token_flow_witness :
  exists s',
    refreshKimiCodeToken Script.refresh_401 Cases.old_credentials (initial None) =
      (Throw (Error "Token refresh unauthorized: invalid_grant"), s') /\
    Script.fetches (trace s') = 1%nat /\
    List.length (trace s') = 1%nat.
Proof.
  eassert (Hrun : refreshKimiCodeToken Script.refresh_401 Cases.old_credentials
                    (initial None) = (_, _)) by (vm_compute; reflexivity).
  destruct (X7_refresh_token_flow _ _ _ _ _ Hrun) as (_ & _ & Hfail & _).
  destruct (Hfail (Error "Token refresh unauthorized: invalid_grant") eq_refl)
    as [Hr Htr].
  eexists. split; [exact Hrun|].
  cbn [trace] in Htr |- *. split; reflexivity.
Defined.

(* ================================================================== *)
(** ** Credentials: what they can and cannot hold *)

Lemma as_TokenResponse_not_empty data :
  truthy_string (j_access_token data) = true ->
  truthy_string (j_refresh_token data) = true ->
  access_token (as_TokenResponse data) <> ""%string /\
  refresh_token (as_TokenResponse data) <> ""%string.
Proof.
  intros Ha Hr.
  destruct (truthy_string_some _ Ha) as (a & _ & Hane & Hao).
  destruct (truthy_string_some _ Hr) as (r & _ & Hrne & Hro).
  cbn [as_TokenResponse access_token refresh_token].
  rewrite Hao, Hro. split; assumption.
Qed.

Lemma tokenResult_not_empty res token :
  tokenResult res = Ok (Some token) ->
  access_token token <> ""%string /\ refresh_token token <> ""%string.
Proof.
  unfold tokenResult. destruct res as [e|response]; [discriminate|].
  destruct (status response =? 200).
  - destruct (json response) as [e|data]; [discriminate|].
    destruct (truthy_string (j_access_token data)) eqn:Ha; [|discriminate].
    destruct (truthy_string (j_refresh_token data)) eqn:Hr; [|discriminate].
    cbn [andb]. intros H. inversion H; subst.
    apply as_TokenResponse_not_empty; assumption.
  - destruct (status response =? 400); [|discriminate].
    destruct (json response) as [e|data]; [discriminate|].
    destruct (strict_eq (j_error data) "authorization_pending"); [discriminate|].
    destruct (strict_eq (j_error data) "expired_token"); discriminate.
Qed.

Lemma refreshResult_not_empty res token :
  refreshResult res = Ok token ->
  access_token token <> ""%string /\ refresh_token token <> ""%string.
Proof.
  unfold refreshResult. destruct res as [e|response]; [discriminate|].
  destruct (negb (ok response)).
  - destruct ((status response =? 401) || (status response =? 403)); discriminate.
  - destruct (json response) as [e|data]; [discriminate|].
    destruct (truthy_string (j_access_token data)) eqn:Ha; [|discriminate].
    destruct (truthy_string (j_refresh_token data)) eqn:Hr; [|discriminate].
    cbn [negb orb]. intros H. inversion H; subst.
    apply as_TokenResponse_not_empty; assumption.
Qed.

(** X8. Credentials returned by a login or by a refresh never hold an empty
    access token or an empty refresh token. *)
Theorem X8_credentials_not_empty (env : Env) :
  (forall fuel callbacks id credentials s',
     loginKimiCode env fuel callbacks (initial id) = (Ok credentials, s') ->
     access credentials <> ""%string /\ refresh credentials <> ""%string) /\
  (forall old s credentials s',
     refreshKimiCodeToken env old s = (Ok credentials, s') ->
     access credentials <> ""%string /\ refresh credentials <> ""%string).
Proof.
  split.
  - intros fuel callbacks id credentials s' Hrun.
    apply login_events in Hrun. destruct Hrun as [_ [_ Hpost]].
    destruct (Hpost credentials eq_refl)
      as (now & req & res & l & token & _ & _ & Hres & ->).
    cbn [credentials_at access refresh].
    eapply tokenResult_not_empty. exact Hres.
  - intros old s credentials s' Hrun.
    rewrite refreshKimiCodeToken_run in Hrun. cbv zeta in Hrun.
    destruct (refreshResult _) as [token|e|] eqn:Hres; try discriminate.
    inversion Hrun; subst. cbn [credentials_at access refresh].
    eapply refreshResult_not_empty. exact Hres.
Qed.

Lemma X8_credentials_not_empty_witness :
  exists credentials,
    fst (loginKimiCode Script.scenario1 5 Script.callbacks (initial None)) =
      Ok credentials /\
    access credentials <> ""%string /\ refresh credentials <> ""%string.
Proof.
  eassert (Hrun : loginKimiCode Script.scenario1 5 Script.callbacks (initial None)
                  = (Ok _, _)) by (vm_compute; reflexivity).
  eexists. split; [rewrite Hrun; reflexivity|].
  exact (proj1 (X8_credentials_not_empty Script.scenario1) _ _ _ _ _ Hrun).
Defined.

(** X9. Nothing checks the [expires_in] of a token answer.  The [expires]
    of the credentials built from it, by a login and by a refresh alike, is
    a number exactly when the answer carried [expires_in], and [NaN] when it
    did not. *)
Theorem X9_expires_nan_without_lifetime (env : Env) :
  (forall fuel callbacks id credentials s',
     loginKimiCode env fuel callbacks (initial id) = (Ok credentials, s') ->
     exists now req res l token,
       trace s' = EvDateNow now :: EvFetch req res :: l /\
       tokenResult res = Ok (Some token) /\
       (token_expires_in token = None <-> expires credentials = NaN)) /\
  (forall old s credentials s',
     refreshKimiCodeToken env old s = (Ok credentials, s') ->
     exists now req res token,
       trace s' = EvDateNow now :: EvFetch req res :: trace s /\
       refreshResult res = Ok token /\
       (token_expires_in token = None <-> expires credentials = NaN)).
Proof.
  assert (Hnan : forall now token,
            token_expires_in token = None <->
            expires (credentials_at now token) = NaN).
  { intros now token. cbn [credentials_at expires].
    destruct (token_expires_in token) as [n|]; cbn [ToNumber mul].
    - split; [discriminate|]. intros H. exfalso.
      destruct (round53_cases (n * 1000)) as [[v Hv] | [sg Hv]];
        rewrite Hv in H; cbn [add] in H; [|discriminate].
      destruct (round53_cases (now + v)) as [[w Hw] | [sg Hw]];
        rewrite Hw in H; discriminate.
    - split; reflexivity. }
  split.
  - intros fuel callbacks id credentials s' Hrun.
    apply login_events in Hrun. destruct Hrun as [_ [_ Hpost]].
    destruct (Hpost credentials eq_refl)
      as (now & req & res & l & token & Htr & _ & Hres & ->).
    exists now, req, res, l, token.
    split; [exact Htr|]. split; [exact Hres | apply Hnan].
  - intros old s credentials s' Hrun.
    rewrite refreshKimiCodeToken_run in Hrun. cbv zeta in Hrun.
    destruct (refreshResult _) as [token|e|] eqn:Hres; try discriminate.
    inversion Hrun; subst. clear Hrun.
    eexists _, _, _, token.
    split; [reflexivity|]. split; [exact Hres | apply Hnan].
Qed.

Lemma X9_expires_nan_without_lifetime_witness :
  exists credentials,
    fst (loginKimiCode Cases.no_expiry 2 Script.callbacks (initial None)) =
      Ok credentials /\
    expires credentials = NaN.
Proof.
  eassert (Hrun : loginKimiCode Cases.no_expiry 2 Script.callbacks (initial None)
                  = (Ok _, _)) by (vm_compute; reflexivity).
  destruct (proj1 (X9_expires_nan_without_lifetime Cases.no_expiry) _ _ _ _ _ Hrun)
    as (now & req & res & l & token & Htr & Hres & Hnan).
  cbn [trace] in Htr. injection Htr as Hnow Hreq Hresp Hl. subst now req res l.
  vm_compute in Hres. injection Hres as Htok. subst token.
  eexists. split; [rewrite Hrun; reflexivity|].
  apply Hnan. reflexivity.
Defined.

(* ================================================================== *)
(** ** A second discipline of login events

    What every request looks like, when the host is called, when the
    program polls and when it restarts, and what may follow a failure. *)

(** The headers of every OAuth request of a process whose device id is [d]. *)
Definition oauth_headers (env : Env) (d : string) : list (string * string) :=
  [ ("Content-Type", "application/x-www-form-urlencoded"%string);
    ("User-Agent", KIMI_CLI_USER_AGENT);
    ("X-Msh-Platform", KIMI_PLATFORM);
    ("X-Msh-Device-Model", DEVICE_MODEL env);
    ("X-Msh-Device-Id", d) ].

Definition request_ok (env : Env) (d : string) (req : Request) : Prop :=
  method req = "POST"%string /\
  (d <> ""%string -> headers req = oauth_headers env d) /\
  ((url req = DEVICE_AUTHORIZATION_URL /\ body req = [("client_id", CLIENT_ID)]) \/
   (url req = TOKEN_URL /\
    exists code,
      body req = [("client_id", CLIENT_ID);
                  ("device_code", code);
                  ("grant_type",
                   "urn:ietf:params:oauth:grant-type:device_code"%string)])).

(** The clock value read right after the most recent presentation of a
    granted device authorization to the host, with that authorization. *)
Fixpoint authorizedAt (l : list Event) : option (Z * DeviceAuthorization) :=
  match l with
  | [] => None
  | EvDateNow t0 :: l' =>
      match l' with
      | EvOnAuth _ _ :: EvFetch _ res :: _ =>
          match deviceAuthorizationResult res with
          | Ok auth => Some (t0, auth)
          | _ => authorizedAt l'
          end
      | _ => authorizedAt l'
      end
  | _ :: l' => authorizedAt l'
  end.

(** A poll is sent right after a clock reading that lies before the
    deadline of the authorization whose code it carries. *)
Definition polled_in_time (req : Request) (l : list Event) : Prop :=
  exists t l0 t0 auth,
    l = EvDateNow t :: l0 /\
    authorizedAt l0 = Some (t0, auth) /\
    poll_for auth req /\
    lt t (deadline t0 auth) = true.

(** When a device authorization may be requested: at the very start, right
    after a poll that found the device code expired (and the notice of it),
    or right after a clock reading at or past the deadline. *)
Definition restart_reason (l : list Event) : Prop :=
  l = [] \/
  (exists req res l0,
     (l = EvFetch req res :: l0 \/
      l = EvOnProgress expiry_notice :: EvFetch req res :: l0) /\
     is_token_request req = true /\ is_expired res = true) \/
  (exists t l0 t0 auth,
     l = EvDateNow t :: l0 /\
     authorizedAt l0 = Some (t0, auth) /\
     lt t (deadline t0 auth) = false).

(** [onAuth] is called right after a granted device authorization, with its
    complete verification URL and its user code. *)
Definition presented (u i : string) (l : list Event) : Prop :=
  exists req res auth l0,
    l = EvFetch req res :: l0 /\
    is_device_request req = true /\
    deviceAuthorizationResult res = Ok auth /\
    u = verification_uri_complete auth /\
    i = ("Please visit the URL to authorize. Your code: " ++ user_code auth)%string.

(** The two progress notices and when they are given: the waiting notice
    right after the first poll of a device code, if it was answered
    "pending"; the expiry notice right after a poll that found the code
    expired. *)
Definition progress_ok (m : string) (l : list Event) : Prop :=
  (m = waiting_notice /\
   exists req res t t0 u i l0,
     l = EvFetch req res :: EvDateNow t :: EvDateNow t0 :: EvOnAuth u i :: l0 /\
     is_token_request req = true /\ is_pending res = true) \/
  (m = expiry_notice /\
   exists req res l0,
     l = EvFetch req res :: l0 /\
     is_token_request req = true /\ is_expired res = true).

(** The exchange failed with [e]: a device authorization that threw [e], or
    a poll that threw [e] other than the expiry error. *)
Definition failed (req : Request) (res : JsError + Response) (e : JsError) : Prop :=
  if is_device_request req then deviceAuthorizationResult res = Throw e
  else tokenResult res = Throw e /\ is_expired res = false.

(** What may come right after an exchange: nothing after a failed one, the
    call of [onAuth] after a device authorization. *)
Definition after_exchange (e : Event) (l : list Event) : Prop :=
  match l with
  | EvFetch req res :: _ =>
      (forall err, ~ failed req res err) /\
      (is_device_request req = true -> exists u i, e = EvOnAuth u i)
  | _ => True
  end.

Definition event_ok (env : Env) (d : string) (callbacks : OAuthLoginCallbacks)
    (e : Event) (l : list Event) : Prop :=
  after_exchange e l /\
  match e with
  | EvFetch req _ =>
      request_ok env d req /\
      (is_token_request req = true -> polled_in_time req l) /\
      (is_device_request req = true -> restart_reason l)
  | EvOnAuth u i => presented u i l
  | EvOnProgress m => has_onProgress callbacks = true /\ progress_ok m l
  | _ => True
  end.

(** How a login that threw [e] ended: on an abort check that found the
    signal set, or on a failed exchange. *)
Definition thrown (e : JsError) (l : list Event) : Prop :=
  (exists l0, l = EvSignalAborted true :: l0 /\ e = abort_error) \/
  (exists req res l0, l = EvFetch req res :: l0 /\ failed req res e).

(** A history that ends with an exchange ends with a failed one, whose
    error is the outcome, or with a poll. *)
Definition ends_ok {A} (r : outcome A) (l : list Event) : Prop :=
  forall req res l0, l = EvFetch req res :: l0 ->
    (forall e, failed req res e -> r = Throw e) /\
    (is_device_request req = true ->
     exists e, deviceAuthorizationResult res = Throw e).

Definition idle_head (l : list Event) : Prop :=
  match l with
  | EvDateNow _ :: _ => True
  | EvSetTimeout _ :: _ => True
  | _ => False
  end.

Lemma authorizedAt_now t l :
  idle_head l -> authorizedAt (EvDateNow t :: l) = authorizedAt l.
Proof. destruct l as [|[| | | | |] l']; simpl; intros H; try contradiction; reflexivity. Qed.

Lemma stableDeviceId_stored env s d :
  DEVICE_ID s = Some d -> d <> ""%string -> stableDeviceId env s = d.
Proof.
  intros Hs Hd. unfold stableDeviceId. rewrite Hs. cbn [truthy_string or_string].
  destruct (String.eqb_spec d ""); [contradiction | reflexivity].
Qed.

Lemma after_poll req res e l :
  is_device_request req = false ->
  (forall err, tokenResult res = Throw err -> is_expired res = true) ->
  after_exchange e (EvFetch req res :: l).
Proof.
  intros Hd Hx. cbn [after_exchange]. split.
  - intros err. unfold failed. rewrite Hd. intros [Ht Hn].
    rewrite (Hx _ Ht) in Hn. discriminate.
  - rewrite Hd. discriminate.
Qed.

Lemma restart_reason_after e l : restart_reason l -> after_exchange e l.
Proof.
  intros [-> | [(req & res & l0 & [-> | ->] & Ht & Hx) | (t & l0 & t0 & a & -> & _)]];
    try exact I.
  apply after_poll; [apply token_not_device; exact Ht | intros; exact Hx].
Qed.

Lemma restart_reason_ends {A} (r : outcome A) l : restart_reason l -> ends_ok r l.
Proof.
  intros [-> | [(req & res & l0 & [-> | ->] & Ht & Hx) | (t & l0 & t0 & a & -> & _)]];
    intros req' res' l' Heq; try discriminate.
  inversion Heq; subst. pose proof (token_not_device _ Ht) as Hd. split.
  - intros e. unfold failed. rewrite Hd. intros [_ Hn]. congruence.
  - rewrite Hd. discriminate.
Qed.

Section SecondDiscipline.

Variable env : Env.
Variable d : string.

Definition poll_inv2 (auth : DeviceAuthorization) (expiresAt : number)
    (printedWaiting : bool) (s : State) : Prop :=
  (d <> ""%string -> DEVICE_ID s = Some d) /\
  (exists t0, authorizedAt (trace s) = Some (t0, auth) /\
              expiresAt = deadline t0 auth) /\
  idle_head (trace s) /\
  (printedWaiting = false ->
   exists t0 u i l0, trace s = EvDateNow t0 :: EvOnAuth u i :: l0).

Definition poll_post2 (r : outcome (option TokenResponse)) (s' : State) : Prop :=
  (d <> ""%string -> DEVICE_ID s' = Some d) /\
  ends_ok r (trace s') /\
  match r with
  | Ok (Some token) =>
      exists req res l0, trace s' = EvFetch req res :: l0 /\
        is_device_request req = false /\ tokenResult res = Ok (Some token)
  | Ok None => restart_reason (trace s')
  | Throw e => thrown e (trace s')
  | OutOfFuel => True
  end.

Lemma token_request_ok s auth :
  (d <> ""%string -> DEVICE_ID s = Some d) ->
  request_ok env d (tokenRequest env s auth).
Proof.
  intros Hid. split; [reflexivity|]. split.
  - intros Hd. cbn [tokenRequest headers]. unfold form_headers, commonHeaders.
    rewrite (stableDeviceId_stored env s d (Hid Hd) Hd). reflexivity.
  - right. split; [reflexivity|]. eexists. reflexivity.
Qed.

Lemma ends_ok_not_fetch {A} (r : outcome A) l :
  match l with EvFetch _ _ :: _ => False | _ => True end -> ends_ok r l.
Proof.
  intros H req res l0 ->. contradiction.
Qed.

Lemma poll_loop_ok fuel :
  forall callbacks auth iv expiresAt printedWaiting s r s',
    poll_inv2 auth expiresAt printedWaiting s ->
    poll_loop env fuel callbacks auth iv expiresAt printedWaiting s = (r, s') ->
    extends (event_ok env d callbacks) (trace s) (trace s') /\ poll_post2 r s'.
Proof.
  induction fuel as [|fuel IH];
    intros callbacks auth iv expiresAt printedWaiting s r s'
      (Hid & (t0 & Hat & Hexp) & Hidle & Hfirst) Hrun.
  - inversion Hrun; subst. split; [apply extends_refl|].
    split; [exact Hid|]. split; [|exact I].
    apply ends_ok_not_fetch. destruct (trace s') as [|[| | | | |] l']; try exact I.
    contradiction.
  - rewrite poll_loop_S in Hrun. cbv zeta in Hrun.
    set (t := env_now env (trace s)) in *.
    set (s1 := log (EvDateNow t) s) in *.
    assert (E1 : extends (event_ok env d callbacks) (trace s) (trace s1)).
    { apply extends_cons; [apply extends_refl|]. split; [|exact I].
      destruct (trace s) as [|[| | | | |] l']; try exact I; contradiction. }
    assert (Hat1 : authorizedAt (trace s1) = Some (t0, auth)).
    { cbn [trace log s1]. rewrite authorizedAt_now by exact Hidle. exact Hat. }
    destruct (lt t expiresAt) eqn:Hlt.
    2:{ inversion Hrun; subst. split; [exact E1|].
        split; [exact Hid|]. split; [apply ends_ok_not_fetch; exact I|].
        right. right. exists t, (trace s), t0, auth.
        split; [reflexivity|]. split; [exact Hat|].
        exact Hlt. }
    set (req := tokenRequest env s1 auth) in *.
    set (res := env_fetch env (trace s1) req) in *.
    set (s2 := after_fetch env s1 req res) in *.
    assert (Hid2 : d <> ""%string -> DEVICE_ID s2 = Some d).
    { intros Hd. cbn [s2 after_fetch DEVICE_ID].
      rewrite (stableDeviceId_stored env s1 d (Hid Hd) Hd). reflexivity. }
    assert (E2 : extends (event_ok env d callbacks) (trace s) (trace s2)).
    { apply extends_cons; [exact E1|]. split; [exact I|].
      split; [apply token_request_ok; exact Hid|]. split.
      - intros _. exists t, (trace s), t0, auth.
        split; [reflexivity|]. split; [exact Hat|].
        split; [repeat split | rewrite <- Hexp; exact Hlt].
      - intros Hdev. discriminate Hdev. }
    assert (Hnd : is_device_request req = false) by reflexivity.
    destruct (tokenResult res) as [[token|]|e|] eqn:Hres.
    + inversion Hrun; subst. split; [exact E2|].
      split; [exact Hid2|]. split.
      * intros req' res' l0 Heq. inversion Heq; subst req' res' l0. split.
        -- intros e. unfold failed. rewrite Hnd. intros [Ht _]. congruence.
        -- rewrite Hnd. discriminate.
      * exists req, res, (trace s1). repeat split. exact Hres.
    + (* pending *)
      pose proof (is_pending_tokenResult _ Hres) as Hpend.
      assert (Hafter : forall e, after_exchange e (trace s2)).
      { intros e. apply after_poll; [exact Hnd|]. intros err Ht. congruence. }
      set (s3 := if printedWaiting then s2
                 else notify callbacks "Waiting for authorization..." s2) in *.
      assert (H3 : trace s3 = trace s2 \/
                   trace s3 = EvOnProgress waiting_notice :: trace s2 /\
                   printedWaiting = false /\ has_onProgress callbacks = true).
      { subst s3. unfold notify. destruct printedWaiting; [left; reflexivity|].
        destruct (has_onProgress callbacks);
          [right; repeat split | left; reflexivity]. }
      assert (Hid3 : d <> ""%string -> DEVICE_ID s3 = Some d).
      { subst s3. unfold notify. destruct printedWaiting; [exact Hid2|].
        destruct (has_onProgress callbacks); exact Hid2. }
      assert (E3 : extends (event_ok env d callbacks) (trace s) (trace s3)).
      { destruct H3 as [-> | (-> & Hpw & Hon)]; [exact E2|].
        apply extends_cons; [exact E2|]. split; [apply Hafter|].
        split; [exact Hon|]. left. split; [reflexivity|].
        destruct (Hfirst Hpw) as (t1 & u & i & l0 & Hs).
        exists req, res, t, t1, u, i, l0. cbn [trace s2 after_fetch s1 log].
        rewrite Hs. repeat split. exact Hpend. }
      assert (Hafter3 : forall e, after_exchange e (trace s3)).
      { intros e. destruct H3 as [-> | (-> & _)]; [apply Hafter | exact I]. }
      assert (Hat3 : authorizedAt (trace s3) = Some (t0, auth)).
      { destruct H3 as [-> | (-> & _)]; exact Hat1. }
      assert (Hrec : forall s5 tl,
                DEVICE_ID s5 = DEVICE_ID s3 ->
                trace s5 = EvSetTimeout iv :: tl ->
                authorizedAt tl = Some (t0, auth) ->
                extends (event_ok env d callbacks) (trace s) tl ->
                (forall e, after_exchange e tl) ->
                poll_loop env fuel callbacks auth iv expiresAt true s5 = (r, s') ->
                extends (event_ok env d callbacks) (trace s) (trace s') /\
                poll_post2 r s').
      { intros s5 tl Hd5 Ht5 Hat5 E5 Haf5 Hrun5.
        apply IH in Hrun5.
        - destruct Hrun5 as [E6 Hpost]. split; [|exact Hpost].
          eapply extends_trans; [|exact E6]. rewrite Ht5.
          apply extends_cons; [exact E5|]. split; [apply Haf5 | exact I].
        - split; [rewrite Hd5; exact Hid3|]. split.
          + exists t0. rewrite Ht5. split; [exact Hat5 | exact Hexp].
          + rewrite Ht5. split; [exact I | discriminate]. }
      destruct (has_signal callbacks).
      * set (b := env_aborted env (trace s3)) in *.
        assert (E4 : extends (event_ok env d callbacks) (trace s)
                       (EvSignalAborted b :: trace s3)).
        { apply extends_cons; [exact E3|]. split; [apply Hafter3 | exact I]. }
        destruct b.
        -- inversion Hrun; subst. split; [exact E4|].
           split; [exact Hid3|]. split; [apply ends_ok_not_fetch; exact I|].
           left. eexists. split; reflexivity.
        -- refine (Hrec _ (EvSignalAborted false :: trace s3)
                     _ _ Hat3 E4 (fun _ => I) Hrun); reflexivity.
      * refine (Hrec _ (trace s3) _ _ Hat3 E3 Hafter3 Hrun); reflexivity.
    + (* the poll threw *)
      destruct (message e =? "expired_token")%string eqn:Hmsg.
      * assert (Hx : is_expired res = true).
        { unfold is_expired. rewrite Hres. exact Hmsg. }
        inversion Hrun; subst. unfold notify.
        destruct (has_onProgress callbacks) eqn:Hon; cbn [trace log DEVICE_ID].
        -- split.
           ++ apply extends_cons; [exact E2|]. split.
              ** apply after_poll; [exact Hnd | intros; exact Hx].
              ** split; [exact Hon|]. right. split; [reflexivity|].
                 exists req, res, (trace s1). repeat split. exact Hx.
           ++ split; [exact Hid2|]. split; [apply ends_ok_not_fetch; exact I|].
              right. left. exists req, res, (trace s1).
              split; [right; reflexivity|]. split; [reflexivity | exact Hx].
        -- split; [exact E2|]. split; [exact Hid2|].
           assert (Hrr : restart_reason (trace s2)).
           { right. left. exists req, res, (trace s1).
             split; [left; reflexivity|]. split; [reflexivity | exact Hx]. }
           split; [apply restart_reason_ends; exact Hrr | exact Hrr].
      * assert (Hx : is_expired res = false).
        { unfold is_expired. rewrite Hres. exact Hmsg. }
        inversion Hrun; subst. split; [exact E2|].
        split; [exact Hid2|]. split.
        -- intros req' res' l0 Heq. inversion Heq; subst req' res' l0. split.
           ++ intros e'. unfold failed. rewrite Hnd. intros [Ht _]. congruence.
           ++ rewrite Hnd. discriminate.
        -- right. exists req, res, (trace s1). split; [reflexivity|].
           unfold failed. rewrite Hnd. split; [exact Hres | exact Hx].
    + inversion Hrun; subst. split; [exact E2|].
      split; [exact Hid2|]. split; [|exact I].
      intros req' res' l0 Heq. inversion Heq; subst req' res' l0. split.
      * intros e. unfold failed. rewrite Hnd. intros [Ht _]. congruence.
      * rewrite Hnd. discriminate.
Qed.

Definition login_post2 (r : outcome OAuthCredentials) (s' : State) : Prop :=
  (d <> ""%string -> stableDeviceId env s' = d) /\
  ends_ok r (trace s') /\
  forall e, r = Throw e -> thrown e (trace s').

Lemma ends_ok_map {A B} (r1 : outcome A) (r2 : outcome B) l :
  (forall e, r1 = Throw e -> r2 = Throw e) -> ends_ok r1 l -> ends_ok r2 l.
Proof.
  intros Hmap H req res l0 Heq. destruct (H req res l0 Heq) as [H1 H2].
  split; [|exact H2]. intros e Hf. apply Hmap. apply H1. exact Hf.
Qed.

Lemma deviceAuthorizationResult_settles res :
  deviceAuthorizationResult res <> OutOfFuel.
Proof.
  unfold deviceAuthorizationResult. destruct res as [e|response]; [discriminate|].
  destruct (negb (ok response)); [discriminate|].
  destruct (json response) as [e|data]; [discriminate|].
  destruct (negb (truthy_string (j_user_code data))
            || negb (truthy_string (j_device_code data))
            || negb (truthy_string (j_verification_uri_complete data)));
    discriminate.
Qed.

Lemma device_request_ok s :
  (d <> ""%string -> stableDeviceId env s = d) ->
  request_ok env d (deviceAuthorizationRequest env s).
Proof.
  intros Hid. split; [reflexivity|]. split.
  - intros Hd. cbn [deviceAuthorizationRequest headers].
    unfold form_headers, commonHeaders. rewrite (Hid Hd). reflexivity.
  - left. split; reflexivity.
Qed.

Lemma loginKimiCode_ok fuel :
  forall callbacks s r s',
    (d <> ""%string -> stableDeviceId env s = d) ->
    restart_reason (trace s) ->
    loginKimiCode env fuel callbacks s = (r, s') ->
    extends (event_ok env d callbacks) (trace s) (trace s') /\ login_post2 r s'.
Proof.
  induction fuel as [|fuel IH]; intros callbacks s r s' Hid Hrr Hrun.
  - inversion Hrun; subst. split; [apply extends_refl|].
    split; [exact Hid|].
    split; [apply restart_reason_ends; exact Hrr | discriminate].
  - rewrite loginKimiCode_S in Hrun. cbv zeta in Hrun.
    set (req := deviceAuthorizationRequest env s) in *.
    set (res := env_fetch env (trace s) req) in *.
    set (s1 := after_fetch env s req res) in *.
    assert (Hdev : is_device_request req = true) by reflexivity.
    assert (Hid1 : d <> ""%string -> DEVICE_ID s1 = Some d).
    { intros Hd. cbn [s1 after_fetch DEVICE_ID]. rewrite (Hid Hd). reflexivity. }
    assert (E1 : extends (event_ok env d callbacks) (trace s) (trace s1)).
    { apply extends_cons; [apply extends_refl|].
      split; [apply restart_reason_after; exact Hrr|].
      split; [apply device_request_ok; exact Hid|].
      split; [intros Ht; discriminate Ht | intros _; exact Hrr]. }
    destruct (deviceAuthorizationResult res) as [auth|e|] eqn:Hres.
    3:{ contradiction (deviceAuthorizationResult_settles res). }
    2:{ inversion Hrun; subst. split; [exact E1|].
        split; [intros Hd; apply stableDeviceId_stored; [exact (Hid1 Hd) | exact Hd]|].
        split.
        - intros req' res' l0 Heq. inversion Heq; subst req' res' l0. split.
          + intros e'. unfold failed. rewrite Hdev. intros Hf. congruence.
          + intros _. exists e. exact Hres.
        - intros e' He'. inversion He'; subst e'. right.
          exists req, res, (trace s). split; [reflexivity|].
          unfold failed. rewrite Hdev. exact Hres. }
    set (s2 := log (EvOnAuth (verification_uri_complete auth)
                      ("Please visit the URL to authorize. Your code: "
                         ++ user_code auth)%string) s1) in *.
    set (now := env_now env (trace s2)) in *.
    set (s3 := log (EvDateNow now) s2) in *.
    assert (E3 : extends (event_ok env d callbacks) (trace s) (trace s3)).
    { apply extends_cons; [apply extends_cons; [exact E1|]|].
      - split.
        + cbn [trace s1 after_fetch after_exchange]. split.
          * intros err. unfold failed. rewrite Hdev. congruence.
          * intros _. eexists _, _. reflexivity.
        + exists req, res, auth, (trace s). repeat split. exact Hres.
      - split; exact I. }
    destruct (poll_loop env fuel callbacks auth (interval_ms auth)
                (deadline now auth) false s3) as [rp s4] eqn:Hpoll.
    apply poll_loop_ok in Hpoll.
    2:{ split.
        - intros Hd. cbn [s3 s2 s1 log after_fetch DEVICE_ID].
          rewrite (Hid Hd). reflexivity.
        - split.
          + exists now. split; [|reflexivity].
            cbn [trace s3 s2 s1 log after_fetch authorizedAt].
            fold res. rewrite Hres. reflexivity.
          + split; [exact I|]. intros _. eexists _, _, _, _. reflexivity. }
    destruct Hpoll as [E4 (Hid4 & Hends & Hpost)].
    assert (E4' : extends (event_ok env d callbacks) (trace s) (trace s4))
      by (eapply extends_trans; eassumption).
    destruct rp as [[token|]|e|].
    + inversion Hrun; subst. cbn [trace log].
      destruct Hpost as (req1 & res1 & l0 & Hl & Hnd & Hr).
      split.
      * apply extends_cons; [exact E4'|]. rewrite Hl. split; [|exact I].
        apply after_poll; [exact Hnd | intros err Ht; congruence].
      * split; [intros Hd; apply stableDeviceId_stored;
                  [exact (Hid4 Hd) | exact Hd]|].
        split; [apply ends_ok_not_fetch; exact I | discriminate].
    + apply IH in Hrun.
      * destruct Hrun as [E5 Hp5]. split; [|exact Hp5].
        eapply extends_trans; eassumption.
      * intros Hd. apply stableDeviceId_stored; [exact (Hid4 Hd) | exact Hd].
      * exact Hpost.
    + inversion Hrun; subst. split; [exact E4'|].
      split; [intros Hd; apply stableDeviceId_stored;
                [exact (Hid4 Hd) | exact Hd]|].
      split.
      * eapply ends_ok_map; [|exact Hends]. intros e' He'.
        inversion He'. reflexivity.
      * intros e' He'. inversion He'; subst e'. exact Hpost.
    + inversion Hrun; subst. split; [exact E4'|].
      split; [intros Hd; apply stableDeviceId_stored;
                [exact (Hid4 Hd) | exact Hd]|].
      split.
      * eapply ends_ok_map; [|exact Hends]. discriminate.
      * discriminate.
Qed.

(** The second discipline holds for a whole login started in a fresh
    history, [d] being the device id of the process. *)
Lemma login_events2 fuel callbacks id r s' :
  d = stableDeviceId env (initial id) ->
  loginKimiCode env fuel callbacks (initial id) = (r, s') ->
  (forall post e l, trace s' = post ++ e :: l -> event_ok env d callbacks e l) /\
  login_post2 r s'.
Proof.
  intros Hd Hrun. apply loginKimiCode_ok in Hrun.
  - destruct Hrun as [E Hp]. split; [|exact Hp].
    intros post e l Heq. eapply extends_split; [exact E | exact Heq].
  - intros _. symmetry. exact Hd.
  - left. reflexivity.
Qed.

End SecondDiscipline.

(* ================================================================== *)
(** ** What a login sends, tells the host, and how it stops *)

(** X10. Every request of a login is a POST to the device-authorization
    endpoint with [client_id] alone or to the token endpoint with
    [client_id], a device code and the device-code grant type; and all of
    them, across restarts, carry the same five headers with one and the same
    device id (the random source never yields an empty id). *)
Theorem X10_requests_of_a_login (env : Env) (fuel : nat)
    (callbacks : OAuthLoginCallbacks) (id : option string)
    (r : outcome OAuthCredentials) (s' : State) :
  loginKimiCode env fuel callbacks (initial id) = (r, s') ->
  forall post req res l,
    trace s' = post ++ EvFetch req res :: l ->
    request_ok env (stableDeviceId env (initial id)) req.
Proof.
  intros Hrun post req res l Heq.
  destruct (login_events2 env _ fuel callbacks id r s' eq_refl Hrun) as [Hev _].
  destruct (Hev _ _ _ Heq) as [_ [Hreq _]]. exact Hreq.
Qed.

Lemma X10_requests_of_a_login_witness :
  exists s' post req res l,
    loginKimiCode Script.scenario2 5 Script.callbacks (initial None) =
      (Ok {| access := "at2"; refresh := "rt2"; expires := Num 4605000 |}, s') /\
    trace s' = post ++ EvFetch req res :: l /\
    headers req =
      oauth_headers Script.scenario2 "000102030405060708090a0b0c0d0e0f".
Proof.
  eassert (Hrun : loginKimiCode Script.scenario2 5 Script.callbacks
                    (initial None) = (_, _)) by (vm_compute; reflexivity).
  eexists _, [_], _, _, _. split; [exact Hrun|]. split; [reflexivity|].
  destruct (X10_requests_of_a_login _ _ _ _ _ _ Hrun [_] _ _ _ eq_refl)
    as (_ & Hh & _).
  apply Hh. discriminate.
Defined.

(** X11. The host's [onAuth] is called only right after a granted device
    authorization, with its complete verification URL and with instructions
    that end in its user code; and every granted device authorization of a
    login is presented that way before anything else happens. *)
Theorem X11_authorization_is_presented (env : Env) (fuel : nat)
    (callbacks : OAuthLoginCallbacks) (id : option string)
    (r : outcome OAuthCredentials) (s' : State) :
  loginKimiCode env fuel callbacks (initial id) = (r, s') ->
  (forall post u i l,
     trace s' = post ++ EvOnAuth u i :: l -> presented u i l) /\
  (forall post req res l auth,
     trace s' = post ++ EvFetch req res :: l ->
     is_device_request req = true ->
     deviceAuthorizationResult res = Ok auth ->
     exists post',
       post = post' ++
              [EvOnAuth (verification_uri_complete auth)
                 ("Please visit the URL to authorize. Your code: "
                    ++ user_code auth)%string]).
Proof.
  intros Hrun.
  destruct (login_events2 env _ fuel callbacks id r s' eq_refl Hrun)
    as [Hev [_ [Hends _]]].
  split.
  - intros post u i l Heq. destruct (Hev _ _ _ Heq) as [_ Hp]. exact Hp.
  - intros post req res l auth Heq Hdev Hres.
    destruct post as [|x post'] using rev_ind.
    + simpl in Heq. destruct (Hends _ _ _ Heq) as [_ Hfail].
      destruct (Hfail Hdev) as [e He]. congruence.
    + clear IHpost'. exists post'. f_equal.
      rewrite <- app_assoc in Heq. simpl in Heq.
      destruct (Hev _ _ _ Heq) as [[_ Hon] Hx].
      destruct (Hon Hdev) as (u & i & ->).
      destruct Hx as (req0 & res0 & auth0 & l0 & Hl & _ & Hres0 & -> & ->).
      inversion Hl; subst. replace auth0 with auth by congruence. reflexivity.
Qed.

Lemma X11_authorization_is_presented_witness :
  exists s' post',
    loginKimiCode Script.scenario1 1 Script.callbacks (initial None) =
      (OutOfFuel, s') /\
    firstn 2 (trace s') =
      post' ++ [EvOnAuth "https://auth.kimi.com/activate?code=ABCD-1234"
                  "Please visit the URL to authorize. Your code: ABCD-1234"].
Proof.
  eassert (Hrun : loginKimiCode Script.scenario1 1 Script.callbacks
                    (initial None) = (_, _)) by (vm_compute; reflexivity).
  edestruct (proj2 (X11_authorization_is_presented _ _ _ _ _ _ Hrun)
               [_; _] _ _ [] Script.auth1 eq_refl eq_refl eq_refl)
    as (post' & Hpost).
  eexists _, post'. split; [exact Hrun | exact Hpost].
Defined.

(** X12. The host's [onProgress] hears two notices only.  The waiting
    notice is given right after the first poll of a device code, when that
    poll is answered "pending", so at most once per device code; the expiry
    notice is given right after a poll that found the device code expired.
    Without an [onProgress] callback nothing is reported. *)
Theorem X12_progress_notices (env : Env) (fuel : nat)
    (callbacks : OAuthLoginCallbacks) (id : option string)
    (r : outcome OAuthCredentials) (s' : State) :
  loginKimiCode env fuel callbacks (initial id) = (r, s') ->
  forall post m l,
    trace s' = post ++ EvOnProgress m :: l ->
    has_onProgress callbacks = true /\ progress_ok m l.
Proof.
  intros Hrun post m l Heq.
  destruct (login_events2 env _ fuel callbacks id r s' eq_refl Hrun) as [Hev _].
  destruct (Hev _ _ _ Heq) as [_ Hp]. exact Hp.
Qed.

Lemma X12_progress_notices_witness :
  exists s',
    loginKimiCode Script.scenario1 5 Script.callbacks (initial None) =
      (Ok {| access := "at1"; refresh := "rt1"; expires := Num 4615000 |}, s') /\
    filter (fun e => match e with EvOnProgress _ => true | _ => false end)
      (trace s') = [EvOnProgress waiting_notice] /\
    exists post l, trace s' = post ++ EvOnProgress waiting_notice :: l /\
                   progress_ok waiting_notice l.
Proof.
  eassert (Hrun : loginKimiCode Script.scenario1 5 Script.callbacks
                    (initial None) = (_, _)) by (vm_compute; reflexivity).
  eexists. split; [exact Hrun|]. split; [reflexivity|].
  eexists [_; _; _; _; _; _; _; _; _; _; _; _; _], _.
  split; [reflexivity|].
  exact (proj2 (X12_progress_notices _ _ _ _ _ _ Hrun
                  [_; _; _; _; _; _; _; _; _; _; _; _; _] _ _ eq_refl)).
Defined.

(** X13. A poll is sent only right after a clock reading that lies strictly
    before the deadline of the device code it carries: the clock value read
    right after that code was presented to the host, plus its lifetime in
    milliseconds, as the program computes the sum, which is that very sum as
    long as it lies below [2^53]. *)
Theorem X13_polls_before_deadline (env : Env) (fuel : nat)
    (callbacks : OAuthLoginCallbacks) (id : option string)
    (r : outcome OAuthCredentials) (s' : State) :
  loginKimiCode env fuel callbacks (initial id) = (r, s') ->
  forall post req res l,
    trace s' = post ++ EvFetch req res :: l ->
    is_token_request req = true ->
    polled_in_time req l /\
    forall t l0 t0 auth,
      l = EvDateNow t :: l0 ->
      authorizedAt l0 = Some (t0, auth) ->
      Z.abs (expires_in auth * 1000) < 2 ^ 53 ->
      Z.abs (t0 + expires_in auth * 1000) < 2 ^ 53 ->
      t < t0 + expires_in auth * 1000.
Proof.
  intros Hrun post req res l Heq Ht.
  destruct (login_events2 env _ fuel callbacks id r s' eq_refl Hrun) as [Hev _].
  destruct (Hev _ _ _ Heq) as [_ [_ [Hp _]]]. specialize (Hp Ht).
  split; [exact Hp|].
  intros t l0 t0 auth Hl Hat Hsp Hss.
  destruct Hp as (t' & l0' & t0' & auth' & Hl' & Hat' & _ & Hlt).
  rewrite Hl in Hl'. injection Hl' as <- <-.
  rewrite Hat in Hat'. injection Hat' as <- <-.
  rewrite (deadline_exact _ _ Hsp Hss) in Hlt. cbn [lt] in Hlt.
  apply Z.ltb_lt. exact Hlt.
Qed.

Lemma X13_polls_before_deadline_witness :
  exists s' post req res l,
    loginKimiCode Script.scenario1 5 Script.callbacks (initial None) =
      (Ok {| access := "at1"; refresh := "rt1"; expires := Num 4615000 |}, s') /\
    trace s' = post ++ EvFetch req res :: l /\
    exists l0, l = EvDateNow 1015000 :: l0 /\
               authorizedAt l0 = Some (1000000, Script.auth1) /\
               1015000 < 1000000 + 1800 * 1000.
Proof.
  eassert (Hrun : loginKimiCode Script.scenario1 5 Script.callbacks
                    (initial None) = (_, _)) by (vm_compute; reflexivity).
  destruct (X13_polls_before_deadline _ _ _ _ _ _ Hrun [_] _ _ _ eq_refl eq_refl)
    as [(t & l0 & t0 & auth & Hl & Hat & _ & _) Hbefore].
  injection Hl as <- <-.
  pose proof Hat as Hat'. vm_compute in Hat'. injection Hat' as <- <-.
  assert (Hsp : Z.abs (expires_in Script.auth1 * 1000) < 2 ^ 53)
    by (vm_compute; reflexivity).
  assert (Hss : Z.abs (1000000 + expires_in Script.auth1 * 1000) < 2 ^ 53)
    by (vm_compute; reflexivity).
  eexists _, [_], _, _, _. split; [exact Hrun|]. split; [reflexivity|].
  eexists. split; [reflexivity|]. split; [exact Hat|].
  exact (Hbefore _ _ _ _ eq_refl Hat Hsp Hss).
Defined.



(** X15. A failed exchange ends the login at once: after a device
    authorization that threw, or a poll that threw anything but the expiry
    error, nothing more happens and the login throws that very error.  And a
    login that throws does so for such a failure or for an abort check that
    found the signal set. *)
Theorem X15_failures_are_final (env : Env) (fuel : nat)
    (callbacks : OAuthLoginCallbacks) (id : option string)
    (r : outcome OAuthCredentials) (s' : State) :
  loginKimiCode env fuel callbacks (initial id) = (r, s') ->
  (forall post req res l e,
     trace s' = post ++ EvFetch req res :: l ->
     failed req res e ->
     post = [] /\ r = Throw e) /\
  (forall e, r = Throw e -> thrown e (trace s')).
Proof.
  intros Hrun.
  destruct (login_events2 env _ fuel callbacks id r s' eq_refl Hrun)
    as [Hev [_ [Hends Hthrown]]].
  split; [|exact Hthrown].
  intros post req res l e Heq Hf.
  assert (Hpost : post = []).
  { destruct post as [|x post'] using rev_ind; [reflexivity|].
    rewrite <- app_assoc in Heq. simpl in Heq.
    destruct (Hev _ _ _ Heq) as [[Hnf _] _]. contradiction (Hnf e). }
  split; [exact Hpost|]. subst post. simpl in Heq.
  destruct (Hends _ _ _ Heq) as [Hr _]. apply Hr. exact Hf.
Qed.

Lemma X15_failures_are_final_witness :
  exists s',
    loginKimiCode Script.scenario3 5 Script.callbacks (initial None) =
      (Throw (Error "Token request failed: access_denied"), s') /\
    thrown (Error "Token request failed: access_denied") (trace s').
Proof.
  eassert (Hrun : loginKimiCode Script.scenario3 5 Script.callbacks
                    (initial None) = (_, _)) by (vm_compute; reflexivity).
  eexists. split; [exact Hrun|].
  exact (proj2 (X15_failures_are_final _ _ _ _ _ _ Hrun) _ eq_refl).
Defined.

(** X16. A login never sleeps less than a second between two polls,
    whatever poll interval the server asks for, zero and negative ones
    included: the delay it asks for is a number of milliseconds that is at
    least 1000, or [Infinity]. *)
Theorem X16_sleeps_at_least_a_second (env : Env) (fuel : nat)
    (callbacks : OAuthLoginCallbacks) (id : option string)
    (r : outcome OAuthCredentials) (s' : State) :
  loginKimiCode env fuel callbacks (initial id) = (r, s') ->
  forall post ms l,
    trace s' = post ++ EvSetTimeout ms :: l ->
    ms = Infinity false \/ exists z, ms = Num z /\ 1000 <= z.
Proof.
  intros Hrun post ms l Heq.
  apply login_events in Hrun. destruct Hrun as [Hwf _].
  destruct (Hwf _ _ _ Heq) as [_ [(auth & _ & ->) _]].
  unfold interval_ms. cbn [mul]. apply round53_lower; lia.
Qed.

Lemma X16_sleeps_at_least_a_second_witness :
  exists s' post l,
    loginKimiCode Cases.negative_interval 5 Script.callbacks (initial None) =
      (Ok {| access := "at1"; refresh := "rt1"; expires := Num 4601000 |}, s') /\
    trace s' = post ++ EvSetTimeout 1000 :: l /\
    (Num 1000 = Infinity false \/ exists z, Num 1000 = Num z /\ 1000 <= z).
Proof.
  eassert (Hrun : loginKimiCode Cases.negative_interval 5 Script.callbacks
                    (initial None) = (_, _)) by (vm_compute; reflexivity).
  eexists _, [_; _; _], _. split; [exact Hrun|]. split; [reflexivity|].
  exact (X16_sleeps_at_least_a_second _ _ _ _ _ _ Hrun [_; _; _] _ _ eq_refl).
Defined.

(* ================================================================== *)
(** ** The polling loop ends *)

(** Number of polls in a history. *)
Fixpoint polls_sent (l : list Event) : nat :=
  match l with
  | [] => O
  | EvFetch req _ :: l' =>
      if is_token_request req then S (polls_sent l') else polls_sent l'
  | _ :: l' => polls_sent l'
  end.

(** An event during which the program does not sleep. *)
Definition awake (e : Event) : Prop :=
  match e with EvSetTimeout _ => False | _ => True end.

Section Clock.

Variable env : Env.

(** The clock never runs backwards, and a sleep takes at least its time. *)
Hypothesis clock_keeps :
  forall e l, awake e -> env_now env l <= env_now env (e :: l).
Hypothesis clock_sleeps :
  forall ms l, env_now env l + ms <= env_now env (EvSetTimeout ms :: l).

Lemma clock_after mid l :
  Forall awake mid -> env_now env l <= env_now env (mid ++ l).
Proof.
  induction 1 as [|e mid He Hmid IH]; simpl; [lia|].
  pose proof (clock_keeps e (mid ++ l) He). lia.
Qed.

Lemma poll_loop_ends n :
  forall callbacks auth iv expiresAt printedWaiting s,
    0 < iv ->
    expiresAt - env_now env (trace s) <= Z.of_nat n * iv ->
    exists r s',
      poll_loop env (S n) callbacks auth iv expiresAt printedWaiting s = (r, s') /\
      r <> OutOfFuel /\
      (polls_sent (trace s') <= polls_sent (trace s) + n)%nat.
Proof.
  induction n as [|n IH];
    intros callbacks auth iv expiresAt printedWaiting s Hiv Hleft;
    rewrite poll_loop_S; cbv zeta; cbn [lt].
  - destruct (Z.ltb_spec (env_now env (trace s)) expiresAt); [lia|].
    eexists _, _. split; [reflexivity|]. split; [discriminate|].
    cbn [trace log polls_sent]. lia.
  - set (t := env_now env (trace s)) in *.
    set (s1 := log (EvDateNow t) s).
    destruct (Z.ltb_spec t expiresAt) as [Hlt|Hge].
    2:{ eexists _, _. split; [reflexivity|]. split; [discriminate|].
        unfold s1. cbn [trace log polls_sent]. lia. }
    set (req := tokenRequest env s1 auth).
    set (res := env_fetch env (trace s1) req).
    set (s2 := after_fetch env s1 req res).
    assert (Hp2 : polls_sent (trace s2) = S (polls_sent (trace s))) by reflexivity.
    destruct (tokenResult res) as [[token|]|e|] eqn:Hres.
    + eexists _, _. split; [reflexivity|]. split; [discriminate|].
      rewrite Hp2. lia.
    + set (s3 := if printedWaiting then s2
                 else notify callbacks "Waiting for authorization..." s2).
      assert (H3 : exists mid, trace s3 = mid ++ trace s /\ Forall awake mid /\
                               polls_sent (trace s3) = S (polls_sent (trace s))).
      { subst s3. unfold notify.
        destruct printedWaiting; [|destruct (has_onProgress callbacks)].
        - exists [EvFetch req res; EvDateNow t]. split; [reflexivity|].
          split; [repeat constructor | exact Hp2].
        - exists [EvOnProgress "Waiting for authorization..."%string;
                  EvFetch req res; EvDateNow t].
          split; [reflexivity|]. split; [repeat constructor | exact Hp2].
        - exists [EvFetch req res; EvDateNow t]. split; [reflexivity|].
          split; [repeat constructor | exact Hp2]. }
      destruct H3 as (mid & Hmid & Hawake & Hp3).
      assert (Hrec : forall s5 mid',
                trace s5 = EvSetTimeout iv :: mid' ++ trace s ->
                Forall awake mid' ->
                polls_sent (trace s5) = S (polls_sent (trace s)) ->
                exists r s',
                  poll_loop env (S n) callbacks auth iv expiresAt true s5 = (r, s') /\
                  r <> OutOfFuel /\
                  (polls_sent (trace s') <= polls_sent (trace s) + S n)%nat).
      { intros s5 mid' Ht5 Haw5 Hp5.
        destruct (IH callbacks auth iv expiresAt true s5 Hiv)
          as (r & s' & Hrun & Hr & Hn).
        - rewrite Ht5.
          pose proof (clock_sleeps iv (mid' ++ trace s)).
          pose proof (clock_after mid' (trace s) Haw5).
          fold t in H0. rewrite Nat2Z.inj_succ in Hleft. lia.
        - exists r, s'. split; [exact Hrun|]. split; [exact Hr|].
          rewrite Hp5 in Hn. lia. }
      destruct (has_signal callbacks).
      * destruct (env_aborted env (trace s3)).
        -- eexists _, _. split; [reflexivity|]. split; [discriminate|].
           cbn [trace log polls_sent]. rewrite Hp3. lia.
        -- apply (Hrec _ (EvSignalAborted false :: mid)).
           ++ cbn [trace log]. rewrite Hmid. reflexivity.
           ++ constructor; [exact I | exact Hawake].
           ++ cbn [trace log polls_sent]. exact Hp3.
      * apply (Hrec _ mid).
        -- cbn [trace log]. rewrite Hmid. reflexivity.
        -- exact Hawake.
        -- cbn [trace log polls_sent]. exact Hp3.
    + destruct (message e =? "expired_token")%string.
      * eexists _, _. split; [reflexivity|]. split; [discriminate|].
        unfold notify. destruct (has_onProgress callbacks);
          cbn [trace log polls_sent]; rewrite Hp2; lia.
      * eexists _, _. split; [reflexivity|]. split; [discriminate|].
        rewrite Hp2. lia.
    + contradiction (tokenResult_settles res).
Qed.

End Clock.



(* ================================================================== *)
(** ** One process, one device id; no signal, no abort *)

(** X18. The device id outlives the login: a refresh done in the state a
    login left behind carries the same five headers, with the same device
    id, as the requests of that login. *)
Theorem X18_refresh_keeps_device_id (env : Env) (fuel : nat)
    (callbacks : OAuthLoginCallbacks) (id : option string)
    (r : outcome OAuthCredentials) (s' : State)
    (credentials : OAuthCredentials) (r2 : outcome OAuthCredentials)
    (s'' : State) :
  stableDeviceId env (initial id) <> ""%string ->
  loginKimiCode env fuel callbacks (initial id) = (r, s') ->
  refreshKimiCodeToken env credentials s' = (r2, s'') ->
  exists post req res,
    trace s'' = post ++ EvFetch req res :: trace s' /\
    url req = TOKEN_URL /\
    headers req = oauth_headers env (stableDeviceId env (initial id)).
Proof.
  intros Hd Hlogin Hrefresh.
  destruct (login_events2 env _ fuel callbacks id r s' eq_refl Hlogin)
    as [_ [Hid _]].
  rewrite refreshKimiCodeToken_run in Hrefresh. cbv zeta in Hrefresh.
  assert (Hh : headers (refreshRequest env s' (refresh credentials)) =
               oauth_headers env (stableDeviceId env (initial id))).
  { cbn [refreshRequest headers]. unfold form_headers, commonHeaders.
    rewrite (Hid Hd). reflexivity. }
  destruct (refreshResult _) as [token|e|]; inversion Hrefresh; subst.
  - exists [EvDateNow (env_now env
              (trace (after_fetch env s' (refreshRequest env s' (refresh credentials))
                        (env_fetch env (trace s')
                           (refreshRequest env s' (refresh credentials))))))].
    eexists _, _. split; [reflexivity|]. split; [reflexivity | exact Hh].
  - exists []. eexists _, _. split; [reflexivity|].
    split; [reflexivity | exact Hh].
  - exists []. eexists _, _. split; [reflexivity|].
    split; [reflexivity | exact Hh].
Qed.

Lemma X18_refresh_keeps_device_id_witness :
  exists s' s'' post req res,
    loginKimiCode Cases.login_then_refresh 2 Script.callbacks (initial None) =
      (Ok {| access := "at1"; refresh := "rt1"; expires := Num 4600000 |}, s') /\
    refreshKimiCodeToken Cases.login_then_refresh
      {| access := "at1"; refresh := "rt1"; expires := Num 4600000 |} s' =
      (Ok {| access := "at2"; refresh := "rt2"; expires := Num 4600000 |}, s'') /\
    trace s'' = post ++ EvFetch req res :: trace s' /\
    headers req =
      oauth_headers Cases.login_then_refresh "000102030405060708090a0b0c0d0e0f".
Proof.
  eassert (Hlogin : loginKimiCode Cases.login_then_refresh 2 Script.callbacks
                      (initial None) = (_, _)) by (vm_compute; reflexivity).
  match type of Hlogin with
  | _ = (_, ?s1) =>
      eassert (Hrefresh : refreshKimiCodeToken Cases.login_then_refresh
                            {| access := "at1"; refresh := "rt1";
                               expires := Num 4600000 |} s1 = (_, _))
        by (vm_compute; reflexivity)
  end.
  assert (Hd : stableDeviceId Cases.login_then_refresh (initial None) <> ""%string)
    by discriminate.
  destruct (X18_refresh_keeps_device_id _ _ _ _ _ _ _ _ _ Hd Hlogin Hrefresh)
    as (post & req & res & Htr & _ & Hh).
  eexists _, _, post, req, res.
  split; [exact Hlogin|]. split; [exact Hrefresh|].
  split; [exact Htr | exact Hh].
Defined.

(** X19. A login whose host gave no abort signal never reads one, and when
    it throws it throws the error of a failed exchange. *)
Theorem X19_no_signal_no_abort (env : Env) (fuel : nat)
    (callbacks : OAuthLoginCallbacks) (id : option string)
    (r : outcome OAuthCredentials) (s' : State) :
  has_signal callbacks = false ->
  loginKimiCode env fuel callbacks (initial id) = (r, s') ->
  (forall b, ~ In (EvSignalAborted b) (trace s')) /\
  (forall e, r = Throw e ->
     exists req res l0, trace s' = EvFetch req res :: l0 /\ failed req res e).
Proof.
  intros Hsig Hrun.
  destruct (login_events env fuel callbacks id r s' Hrun) as [Hwf _].
  destruct (login_events2 env _ fuel callbacks id r s' eq_refl Hrun)
    as [_ [_ [_ Hthrown]]].
  assert (Hnone : forall b, ~ In (EvSignalAborted b) (trace s')).
  { intros b Hin. apply in_split in Hin. destruct Hin as (post & l & Heq).
    destruct (Hwf _ _ _ Heq) as [_ [Hs _]]. congruence. }
  split; [exact Hnone|].
  intros e He. destruct (Hthrown e He) as [(l0 & Hl & _) | Hf]; [|exact Hf].
  exfalso. apply (Hnone true). rewrite Hl. left. reflexivity.
Qed.

Lemma X19_no_signal_no_abort_witness :
  exists s' req res l0,
    loginKimiCode Script.scenario3 5 Cases.no_signal (initial None) =
      (Throw (Error "Token request failed: access_denied"), s') /\
    trace s' = EvFetch req res :: l0 /\
    failed req res (Error "Token request failed: access_denied").
Proof.
  eassert (Hrun : loginKimiCode Script.scenario3 5 Cases.no_signal
                    (initial None) = (_, _)) by (vm_compute; reflexivity).
  destruct (proj2 (X19_no_signal_no_abort Script.scenario3 5 Cases.no_signal
                     None _ _ eq_refl Hrun) _ eq_refl)
    as (req & res & l0 & Htr & Hf).
  eexists _, req, res, l0. split; [exact Hrun|]. split; [exact Htr | exact Hf].
Defined.
